(** * Entries of the OrbitDB operation log (src/oplog/entry.js)

    A shallow embedding of [create], [verify], [isEntry], [isEqual],
    [decode] and [encode].  JavaScript values are an inductive type; objects
    are association lists in insertion order.  The module's collaborators
    (the dag-cbor codec behind [Block.encode]/[Block.decode], the CID string
    of a block, the logical [Clock], the identity system and the user's
    encryption callbacks) are variables of a Section.  Every function runs in
    a small monad that returns a value or a thrown exception and records the
    collaborator calls made, in order. *)

From Stdlib Require Import String Ascii List ZArith Bool Lia Arith Sorting.Sorted.
Import ListNotations.

Local Open Scope string_scope.
Local Open Scope list_scope.

(** ** JavaScript values *)

Local Set Warnings "-register-all".

Inductive val : Type :=
| VUndef
| VNull
| VBool (b : bool)
| VNum (z : Z)
| VStr (s : string)
| VBytes (bs : list Byte.byte)       (* Uint8Array *)
| VArr (l : list val)
| VObj (fs : list (string * val)).

(** JavaScript truthiness. *)
Definition truthy (v : val) : bool :=
  match v with
  | VUndef | VNull => false
  | VBool b => b
  | VNum z => negb (Z.eqb z 0)
  | VStr s => negb (String.eqb s "")
  | VBytes _ | VArr _ | VObj _ => true
  end.

(** [a && b] and [a || b] on values. *)
Definition js_and (a b : val) : val := if truthy a then b else a.
Definition js_or (a b : val) : val := if truthy a then a else b.

(** [v == null] *)
Definition is_nullish (v : val) : bool :=
  match v with VUndef | VNull => true | _ => false end.

(** [v === undefined] *)
Definition is_undef (v : val) : bool :=
  match v with VUndef => true | _ => false end.

(** [Array.isArray(v)] *)
Definition is_array (v : val) : bool :=
  match v with VArr _ => true | _ => false end.

(** A default parameter [p = d]: applies when the argument is undefined. *)
Definition default_arg (v d : val) : val := if is_undef v then d else v.

(** Decimal rendering of an index, for the keys of array-like values. *)
Fixpoint digits (fuel n : nat) (acc : string) : string :=
  match fuel with
  | 0 => acc
  | S f =>
      let acc' := String (ascii_of_nat (48 + n mod 10)) acc in
      if Nat.ltb n 10 then acc' else digits f (n / 10) acc'
  end.

Definition nat_to_string (n : nat) : string := digits (S n) n EmptyString.

Fixpoint indexed {A : Type} (f : A -> val) (i : nat) (l : list A)
  : list (string * val) :=
  match l with
  | [] => []
  | x :: r => (nat_to_string i, f x) :: indexed f (S i) r
  end.

(** Own enumerable properties, as read by [Object.assign({}, v)] and by
    the spread [{...v}]. *)
Definition own_props (v : val) : list (string * val) :=
  match v with
  | VObj fs => fs
  | VArr l => indexed (fun x => x) 0 l
  | VStr s => indexed (fun c => VStr (String c EmptyString)) 0 (list_ascii_of_string s)
  | VBytes bs => indexed (fun b => VNum (Z.of_nat (Byte.to_nat b))) 0 bs
  | _ => []
  end.

Fixpoint lookup (k : string) (fs : list (string * val)) : option val :=
  match fs with
  | [] => None
  | (k', v) :: r => if String.eqb k k' then Some v else lookup k r
  end.

(** [o[k] = v]: an existing key keeps its place, a new one is appended. *)
Fixpoint upd (k : string) (v : val) (fs : list (string * val))
  : list (string * val) :=
  match fs with
  | [] => [(k, v)]
  | (k', v') :: r => if String.eqb k k' then (k, v) :: r else (k', v') :: upd k v r
  end.

(** [delete o[k]] *)
Fixpoint del (k : string) (fs : list (string * val)) : list (string * val) :=
  match fs with
  | [] => []
  | (k', v') :: r => if String.eqb k k' then r else (k', v') :: del k r
  end.

Definition get_fs (fs : list (string * val)) (k : string) : val :=
  match lookup k fs with Some v => v | None => VUndef end.

(** [v.k] on a value that is not null or undefined. *)
Definition get (v : val) (k : string) : val := get_fs (own_props v) k.

(** [===]; object identity is approximated by structural equality. *)
Fixpoint strict_eq (a b : val) : bool :=
  match a, b with
  | VUndef, VUndef | VNull, VNull => true
  | VBool x, VBool y => Bool.eqb x y
  | VNum x, VNum y => Z.eqb x y
  | VStr x, VStr y => String.eqb x y
  | VBytes x, VBytes y =>
      (fix go (x y : list Byte.byte) : bool :=
         match x, y with
         | [], [] => true
         | c :: x', d :: y' => Byte.eqb c d && go x' y'
         | _, _ => false
         end) x y
  | VArr x, VArr y =>
      (fix go (x y : list val) : bool :=
         match x, y with
         | [], [] => true
         | c :: x', d :: y' => strict_eq c d && go x' y'
         | _, _ => false
         end) x y
  | VObj x, VObj y =>
      (fix go (x y : list (string * val)) : bool :=
         match x, y with
         | [], [] => true
         | (k, c) :: x', (l, d) :: y' => String.eqb k l && strict_eq c d && go x' y'
         | _, _ => false
         end) x y
  | _, _ => false
  end.

(** ** Exceptions, collaborator calls and the monad *)

Inductive exn : Type :=
| Error (msg : string)     (* [new Error(msg)] thrown by entry.js itself *)
| TypeError                (* thrown by the engine (property access) *)
| Foreign.                 (* thrown by a collaborator, propagated unchanged *)

Inductive call : Type :=
| CClock | CEncode | CDecode | CEncrypt | CDecrypt | CSign | CVerify.

Inductive res (A : Type) : Type :=
| Ok (a : A)
| Throw (e : exn).
Arguments Ok {A} a.
Arguments Throw {A} e.

Definition failed {A} (r : res A) : bool :=
  match r with Throw _ => true | Ok _ => false end.

(** A computation: the collaborator calls it made, and its outcome. *)
Definition M (A : Type) : Type := (list call * res A)%type.

Definition ret {A} (a : A) : M A := ([], Ok a).
Definition throw {A} (e : exn) : M A := ([], Throw e).

Definition bind {A B} (m : M A) (f : A -> M B) : M B :=
  match m with
  | (t, Ok a) => let (t', r) := f a in (t ++ t', r)
  | (t, Throw e) => (t, Throw e)
  end.

Notation "x <- m ;; k" := (bind m (fun x => k))
  (at level 61, m at next level, right associativity).

Arguments bind : simpl never.

(** An awaited collaborator: [None] is a rejected promise / a throw. *)
Definition invoke {A} (c : call) (o : option A) : M A :=
  ([c], match o with Some a => Ok a | None => Throw Foreign end).

(** [try { m } catch (e) { throw new Error(msg) }] *)
Definition catch_as {A} (m : M A) (e : exn) : M A :=
  match m with
  | (t, Throw _) => (t, Throw e)
  | ok => ok
  end.

(** Property read that throws on [null] / [undefined]. *)
Definition read_prop (v : val) (k : string) : M val :=
  if is_nullish v then throw TypeError else ret (get v k).

(** Property write in strict mode (ES modules): objects, arrays and typed
    arrays accept a new property, primitives throw. *)
Definition set_prop (v : val) (k : string) (x : val) : M val :=
  match v with
  | VObj fs => ret (VObj (upd k x fs))
  | VArr _ | VBytes _ => ret (VObj (upd k x (own_props v)))
  | _ => throw TypeError
  end.

(** ** Collaborators *)

Record Identity : Type := mkIdentity {
  publicKey : val;
  identity_hash : val;                       (* [identity.hash] *)
  sign : list Byte.byte -> option val        (* [identity.sign(identity, bytes)] *)
}.

Record Identities : Type := mkIdentities {
  verify_sig : val -> val -> list Byte.byte -> option bool
                                             (* [identities.verify(sig, key, bytes)] *)
}.

(** A user callback [(bytes) => bytes] for encryption, and one applied to a
    decoded value for decryption. *)
Definition EncryptFn : Type := list Byte.byte -> option (list Byte.byte).
Definition DecryptFn : Type := val -> option (list Byte.byte).

(** ** The entry module *)

Section Entry.

(** [codec.encode] of dag-cbor: fails ([None]) on values it cannot encode. *)
Variable cenc : val -> option (list Byte.byte).
(** [codec.decode] of dag-cbor. *)
Variable cdec : list Byte.byte -> option val.
(** [CID.create(1, codec.code, sha256(bytes)).toString(base58btc)]. *)
Variable chash : list Byte.byte -> string.
(** [Clock(publicKey)] of clock.js: the logical clock of a new log. *)
Variable Clock : val -> val.

(** [Block.encode({ value, codec, hasher })], as [(cid string, bytes)]. *)
Definition block_encode (v : val) : M (string * list Byte.byte) :=
  bs <- invoke CEncode (cenc v) ;;
  ret (chash bs, bs).

(** [Block.decode({ bytes, codec, hasher })], as [(value, cid string)]. *)
Definition block_decode (bs : list Byte.byte) : M (val * string) :=
  v <- invoke CDecode (cdec bs) ;;
  ret (v, chash bs).

(** [create] (entry.js, lines 58-95).  [identity] is [None] when it is null
    or undefined; [next] and [refs] are the raw arguments, defaulted to
    [[]] when undefined. *)
Definition create (identity : option Identity) (id payload : val)
    (encryptPayloadFn : option EncryptFn) (clock next refs : val) : M val :=
  let next := default_arg next (VArr []) in
  let refs := default_arg refs (VArr []) in
  match identity with
  | None => throw (Error "Identity is required, cannot create entry")
  | Some identity =>
    if is_nullish id then throw (Error "Entry requires an id") else
    if is_nullish payload then throw (Error "Entry requires a payload") else
    if is_nullish next || negb (is_array next)
    then throw (Error "'next' argument is not an array") else
    clock <- (if truthy clock then ret clock
              else invoke CClock (Some (Clock (publicKey identity)))) ;;
    encryptedPayload <-
      (match encryptPayloadFn with
       | Some f =>
           pb <- block_encode payload ;;
           c <- invoke CEncrypt (f (snd pb)) ;;
           ret (VBytes c)
       | None => ret VUndef
       end) ;;
    let entry := [("id", id); ("payload", js_or encryptedPayload payload);
                  ("next", next); ("refs", refs); ("clock", clock); ("v", VNum 2)] in
    eb <- block_encode (VObj entry) ;;
    signature <- invoke CSign (sign identity (snd eb)) ;;
    let entry := upd "key" (publicKey identity) entry in
    let entry := upd "identity" (identity_hash identity) entry in
    let entry := upd "sig" signature entry in
    let entry := upd "payload" payload entry in
    let entry := match encryptPayloadFn with
                 | Some _ => upd "_payload" encryptedPayload entry
                 | None => entry
                 end in
    ret (VObj entry)
  end.

(** [isEntry] (lines 135-142): the value of the [&&] chain. *)
Definition isEntry (obj : val) : val :=
  js_and (js_and (js_and (js_and (js_and (js_and obj
    (VBool (negb (is_undef (get obj "id")))))
    (VBool (negb (is_undef (get obj "next")))))
    (VBool (negb (is_undef (get obj "payload")))))
    (VBool (negb (is_undef (get obj "v")))))
    (VBool (negb (is_undef (get obj "clock")))))
    (VBool (negb (is_undef (get obj "refs")))).

(** The snapshot [verify] encodes (lines 112-121). *)
Definition verify_value (entry : val) : val :=
  let e := VObj (own_props entry) in
  VObj [("id", get e "id"); ("payload", js_or (get e "_payload") (get e "payload"));
        ("next", get e "next"); ("refs", get e "refs");
        ("clock", get e "clock"); ("v", get e "v")].

(** [verify] (lines 106-126).  [identities] is [None] when falsy. *)
Definition verify (identities : option Identities) (entry : val) : M bool :=
  match identities with
  | None => throw (Error "Identities is required, cannot verify entry")
  | Some ids =>
    if negb (truthy (isEntry entry)) then throw (Error "Invalid Log entry") else
    if negb (truthy (get entry "key")) then throw (Error "Entry doesn't have a key") else
    if negb (truthy (get entry "sig")) then throw (Error "Entry doesn't have a signature") else
    eb <- block_encode (verify_value entry) ;;
    invoke CVerify (verify_sig ids (get entry "sig") (get entry "key") (snd eb))
  end.

(** [isEqual] (lines 152-154). *)
Definition isEqual (a b : val) : val :=
  js_and (js_and (js_and a b) (get a "hash"))
         (VBool (strict_eq (get a "hash") (get b "hash"))).

(** The body of the entry-level [try] of [decode] (lines 168-170):
    the inner bytes and the wrapper's cid. *)
Definition decrypt_entry_layer (f : DecryptFn) (bytes : list Byte.byte)
  : M (list Byte.byte * string) :=
  eb <- block_decode bytes ;;
  bs <- invoke CDecrypt (f (fst eb)) ;;
  ret (bs, snd eb).

(** The body of the payload-level [try] of [decode] (lines 181-184). *)
Definition decrypt_payload_layer (g : DecryptFn) (entry : val) : M val :=
  p <- read_prop entry "payload" ;;
  dbs <- invoke CDecrypt (g p) ;;
  dp <- block_decode dbs ;;
  p' <- read_prop entry "payload" ;;
  entry <- set_prop entry "_payload" p' ;;
  set_prop entry "payload" (fst dp).

(** [decode] (lines 163-197). *)
Definition decode (bytes : list Byte.byte)
    (decryptEntryFn decryptPayloadFn : option DecryptFn) : M val :=
  pre <- (match decryptEntryFn with
          | Some f =>
              catch_as (r <- decrypt_entry_layer f bytes ;; ret (fst r, Some (snd r)))
                       (Error "Could not decrypt entry")
          | None => ret (bytes, None)
          end) ;;
  de <- block_decode (fst pre) ;;
  entry <- (match decryptPayloadFn with
            | Some g => catch_as (decrypt_payload_layer g (fst de))
                                 (Error "Could not decrypt payload")
            | None => ret (fst de)
            end) ;;
  let hash := match snd pre with Some h => h | None => snd de end in
  ret (VObj (upd "hash" (VStr hash) (own_props entry))).

(** The object [encode] hands to the codec (lines 207-214). *)
Definition encode_value (entry : val) (encryptPayloadFn : option EncryptFn)
  : list (string * val) :=
  let e := own_props entry in
  let e := match encryptPayloadFn with
           | Some _ => upd "payload" (get_fs e "_payload") e
           | None => e
           end in
  del "hash" (del "_payload" e).

(** [encode] (lines 206-231): [(hash, bytes)]. *)
Definition encode (entry : val) (encryptEntryFn encryptPayloadFn : option EncryptFn)
  : M (string * list Byte.byte) :=
  eb <- block_encode (VObj (encode_value entry encryptPayloadFn)) ;;
  match encryptEntryFn with
  | Some f =>
      c <- invoke CEncrypt (f (snd eb)) ;;
      block_encode (VBytes c)
  | None => ret eb
  end.

End Entry.

(** ** Deep equality up to property order

    dag-cbor writes the keys of a map in one canonical order, so a decoded
    object lists its properties in that order, whatever order they were
    inserted in.  [norm] sorts (stably) the properties of every nested object;
    two values with the same [norm] are deeply equal up to property order. *)

Fixpoint insert_kv (kv : string * val) (l : list (string * val))
  : list (string * val) :=
  match l with
  | [] => [kv]
  | kv' :: r => if String.leb (fst kv) (fst kv') then kv :: l else kv' :: insert_kv kv r
  end.

Fixpoint norm (v : val) : val :=
  match v with
  | VArr l => VArr (map norm l)
  | VObj fs =>
      VObj ((fix go (fs : list (string * val)) : list (string * val) :=
               match fs with
               | [] => []
               | (k, w) :: r => insert_kv (k, norm w) (go r)
               end) fs)
  | _ => v
  end.

Fixpoint norm_fields (fs : list (string * val)) : list (string * val) :=
  match fs with
  | [] => []
  | (k, w) :: r => insert_kv (k, norm w) (norm_fields r)
  end.

(** ** A concrete codec, for instances

    A self-delimiting serialization of values; like dag-cbor it writes the
    properties of objects in a canonical order and refuses [undefined]
    anywhere in a value. *)

Module ToyCodec.

Import Byte.

Fixpoint ser_nat (n : nat) : list byte :=
  match n with 0 => [x00] | S k => x01 :: ser_nat k end.

Definition ser_Z (z : Z) : list byte :=
  (if Z.ltb z 0 then x01 else x00) :: ser_nat (Z.to_nat (Z.abs z)).

Fixpoint ser_bytes (bs : list byte) : list byte :=
  match bs with [] => [x00] | b :: r => x01 :: b :: ser_bytes r end.

Fixpoint ser_str (s : string) : list byte :=
  match s with
  | EmptyString => [x00]
  | String c r => x01 :: byte_of_ascii c :: ser_str r
  end.

Fixpoint ser (v : val) : list byte :=
  match v with
  | VUndef => [x00]
  | VNull => [x01]
  | VBool false => [x02]
  | VBool true => [x03]
  | VNum z => x04 :: ser_Z z
  | VStr s => x05 :: ser_str s
  | VBytes bs => x06 :: ser_bytes bs
  | VArr l =>
      x07 :: (fix go (l : list val) : list byte :=
                match l with [] => [x00] | w :: r => x01 :: ser w ++ go r end) l
  | VObj fs =>
      x08 :: (fix go (fs : list (string * val)) : list byte :=
                match fs with
                | [] => [x00]
                | (k, w) :: r => x01 :: ser_str k ++ ser w ++ go r
                end) fs
  end.

Fixpoint ser_list (l : list val) : list byte :=
  match l with [] => [x00] | w :: r => x01 :: ser w ++ ser_list r end.

Fixpoint ser_fields (fs : list (string * val)) : list byte :=
  match fs with [] => [x00] | (k, w) :: r => x01 :: ser_str k ++ ser w ++ ser_fields r end.

Fixpoint parse_nat (bs : list byte) : option (nat * list byte) :=
  match bs with
  | x00 :: r => Some (0, r)
  | x01 :: r => match parse_nat r with Some (n, r') => Some (S n, r') | None => None end
  | _ => None
  end.

Definition parse_Z (bs : list byte) : option (Z * list byte) :=
  match bs with
  | s :: r =>
      match parse_nat r with
      | Some (n, r') =>
          match s with
          | x00 => Some (Z.of_nat n, r')
          | x01 => Some (Z.opp (Z.of_nat n), r')
          | _ => None
          end
      | None => None
      end
  | [] => None
  end.

Fixpoint parse_bytes (bs : list byte) : option (list byte * list byte) :=
  match bs with
  | x00 :: r => Some ([], r)
  | x01 :: b :: r =>
      match parse_bytes r with Some (l, r') => Some (b :: l, r') | None => None end
  | _ => None
  end.

Fixpoint parse_str (bs : list byte) : option (string * list byte) :=
  match bs with
  | x00 :: r => Some (EmptyString, r)
  | x01 :: b :: r =>
      match parse_str r with
      | Some (s, r') => Some (String (ascii_of_byte b) s, r')
      | None => None
      end
  | _ => None
  end.

Fixpoint parse (n : nat) (bs : list byte) {struct n} : option (val * list byte) :=
  match n with
  | 0 => None
  | S n =>
    match bs with
    | x00 :: r => Some (VUndef, r)
    | x01 :: r => Some (VNull, r)
    | x02 :: r => Some (VBool false, r)
    | x03 :: r => Some (VBool true, r)
    | x04 :: r => match parse_Z r with Some (z, r') => Some (VNum z, r') | None => None end
    | x05 :: r => match parse_str r with Some (s, r') => Some (VStr s, r') | None => None end
    | x06 :: r => match parse_bytes r with Some (l, r') => Some (VBytes l, r') | None => None end
    | x07 :: r => match parse_list n r with Some (l, r') => Some (VArr l, r') | None => None end
    | x08 :: r => match parse_fields n r with Some (l, r') => Some (VObj l, r') | None => None end
    | _ => None
    end
  end
with parse_list (n : nat) (bs : list byte) {struct n} : option (list val * list byte) :=
  match n with
  | 0 => None
  | S n =>
    match bs with
    | x00 :: r => Some ([], r)
    | x01 :: r =>
        match parse n r with
        | Some (w, r1) =>
            match parse_list n r1 with Some (l, r2) => Some (w :: l, r2) | None => None end
        | None => None
        end
    | _ => None
    end
  end
with parse_fields (n : nat) (bs : list byte) {struct n}
  : option (list (string * val) * list byte) :=
  match n with
  | 0 => None
  | S n =>
    match bs with
    | x00 :: r => Some ([], r)
    | x01 :: r =>
        match parse_str r with
        | Some (k, r0) =>
            match parse n r0 with
            | Some (w, r1) =>
                match parse_fields n r1 with
                | Some (l, r2) => Some ((k, w) :: l, r2)
                | None => None
                end
            | None => None
            end
        | None => None
        end
    | _ => None
    end
  end.

Fixpoint has_undef (v : val) : bool :=
  match v with
  | VUndef => true
  | VArr l => existsb has_undef l
  | VObj fs => existsb (fun kv => has_undef (snd kv)) fs
  | _ => false
  end.

(** The parser fuel a value needs. *)
Fixpoint size (v : val) : nat :=
  match v with
  | VArr l =>
      S ((fix go (l : list val) : nat :=
            match l with [] => 1 | w :: r => S (size w + go r) end) l)
  | VObj fs =>
      S ((fix go (fs : list (string * val)) : nat :=
            match fs with [] => 1 | (_, w) :: r => S (size w + go r) end) fs)
  | _ => 1
  end.

Fixpoint size_list (l : list val) : nat :=
  match l with [] => 1 | w :: r => S (size w + size_list r) end.

Fixpoint size_fields (fs : list (string * val)) : nat :=
  match fs with [] => 1 | (_, w) :: r => S (size w + size_fields r) end.

Definition cenc (v : val) : option (list byte) :=
  if has_undef v then None else Some (ser (norm v)).

Definition cdec (bs : list byte) : option val :=
  match parse (S (length bs)) bs with
  | Some (v, []) => Some v
  | _ => None
  end.

Definition chash (bs : list byte) : string := "z" ++ nat_to_string (length bs).

Definition Clock (k : val) : val := VObj [("id", k); ("time", VNum 0)].

(** An identity whose signature of [bs] is the string ["sig:" ++ bs], and an
    identity provider that checks exactly that signature and key. *)
Definition sig_of (bs : list byte) : string := "sig:" ++ string_of_list_byte bs.

Definition signer : Identity :=
  mkIdentity (VStr "pk") (VStr "idh") (fun bs => Some (VStr (sig_of bs))).

Definition verifier : Identities :=
  mkIdentities (fun s k bs => Some (strict_eq s (VStr (sig_of bs)) && strict_eq k (VStr "pk"))).

(** A payload cipher: byte reversal. *)
Definition enc : EncryptFn := fun b => Some (rev b).

Definition dec : DecryptFn :=
  fun v => match v with VBytes c => Some (rev c) | _ => None end.

Definition ok_or {A} (r : res A) (d : A) : A :=
  match r with Ok a => a | Throw _ => d end.

(** [Entry.create(signer, 'log1', 'hello')], without and with payload
    encryption. *)
Definition entry_plain : val :=
  ok_or (snd (create cenc chash Clock (Some signer) (VStr "log1") (VStr "hello")
                None VNull VUndef VUndef)) VUndef.

Definition fields_plain : list (string * val) := own_props entry_plain.

(** [Entry.encode(entry_plain)] *)
Definition wire_plain : string * list byte :=
  ok_or (snd (encode cenc chash (VObj fields_plain) None None)) ("", []).

Definition entry_enc : val :=
  ok_or (snd (create cenc chash Clock (Some signer) (VStr "log1") (VStr "hello")
                (Some enc) VNull VUndef VUndef)) VUndef.

(** [Entry.encode(entry_enc, null, enc)] *)
Definition wire_enc : string * list byte :=
  ok_or (snd (encode cenc chash entry_enc None (Some enc))) ("", []).

(** An object that is not a log entry: no [next], [refs], [clock], [v]. *)
Definition partial_fields : list (string * val) :=
  [("id", VStr "log1"); ("payload", VStr "hello")].

(** A well-formed entry whose payload holds [undefined]. *)
Definition entry_undef_payload : val :=
  VObj [("id", VStr "log1"); ("payload", VObj [("a", VUndef)]); ("next", VArr []);
        ("refs", VArr []); ("clock", Clock (VStr "pk")); ("v", VNum 2);
        ("key", VStr "pk"); ("identity", VStr "idh"); ("sig", VStr "sig:x")].

End ToyCodec.

(** * Properties *)

(** ** The monad *)

Lemma snd_bind {A B} (m : M A) (f : A -> M B) :
  snd (bind m f) = match snd m with Ok a => snd (f a) | Throw e => Throw e end.
Proof. destruct m as [t [a|e]]; unfold bind; simpl; [destruct (f a)|]; reflexivity. Qed.

Lemma fst_bind {A B} (m : M A) (f : A -> M B) :
  fst (bind m f) = fst m ++ match snd m with Ok a => fst (f a) | Throw _ => [] end.
Proof.
  destruct m as [t [a|e]]; unfold bind; simpl; [destruct (f a)|]; simpl;
    rewrite ?app_nil_r; reflexivity.
Qed.

Lemma snd_catch_as {A} (m : M A) e :
  snd (catch_as m e) = match snd m with Ok a => Ok a | Throw _ => Throw e end.
Proof. destruct m as [t [a|x]]; reflexivity. Qed.

Ltac msimpl := repeat (rewrite ?snd_bind, ?snd_catch_as; simpl).

(** ** Association lists *)

Ltac str_cases :=
  repeat match goal with
         | |- context [String.eqb ?a ?b] => destruct (String.eqb_spec a b); subst
         end.

Lemma lookup_upd k k' v fs :
  lookup k (upd k' v fs) = if String.eqb k k' then Some v else lookup k fs.
Proof.
  induction fs as [|[k0 v0] r IH]; simpl.
  - reflexivity.
  - destruct (String.eqb_spec k' k0) as [->|Hne]; simpl.
    + destruct (String.eqb k k0); reflexivity.
    + rewrite IH. str_cases; congruence.
Qed.

Lemma lookup_del k k' fs : k <> k' -> lookup k (del k' fs) = lookup k fs.
Proof.
  intros Hne. induction fs as [|[k0 v0] r IH]; simpl; [reflexivity|].
  destruct (String.eqb_spec k' k0) as [->|Hne']; simpl.
  - destruct (String.eqb_spec k k0); [congruence | reflexivity].
  - rewrite IH. reflexivity.
Qed.

Lemma leb_refl s : String.leb s s = true.
Proof. destruct (String.leb_total s s); assumption. Qed.

Lemma lookup_insert k k' v l :
  lookup k (insert_kv (k', v) l) = if String.eqb k k' then Some v else lookup k l.
Proof.
  induction l as [|[k0 v0] r IH]; simpl; [reflexivity|].
  destruct (String.leb k' k0) eqn:Hle; simpl; [reflexivity|].
  rewrite IH. destruct (String.eqb_spec k k0) as [->|Hne].
  - destruct (String.eqb_spec k0 k') as [->|]; [|reflexivity].
    rewrite leb_refl in Hle. discriminate.
  - reflexivity.
Qed.

Lemma norm_obj fs : norm (VObj fs) = VObj (norm_fields fs).
Proof. reflexivity. Qed.

Lemma lookup_norm_fields k fs :
  lookup k (norm_fields fs) = option_map norm (lookup k fs).
Proof.
  induction fs as [|[k0 w] r IH]; simpl; [reflexivity|].
  rewrite lookup_insert, IH. destruct (String.eqb k k0); reflexivity.
Qed.

(** Values whose normal form is a primitive are that primitive. *)
Lemma norm_prim v :
  match norm v with
  | VArr _ | VObj _ => True
  | w => v = w
  end.
Proof. destruct v; simpl; try reflexivity; rewrite ?norm_obj; exact I. Qed.

Lemma norm_VUndef v : norm v = VUndef -> v = VUndef.
Proof. intros H. pose proof (norm_prim v) as P. rewrite H in P. exact P. Qed.

Lemma norm_VStr v s : norm v = VStr s -> v = VStr s.
Proof. intros H. pose proof (norm_prim v) as P. rewrite H in P. exact P. Qed.

Lemma norm_VBytes v c : norm v = VBytes c -> v = VBytes c.
Proof. intros H. pose proof (norm_prim v) as P. rewrite H in P. exact P. Qed.

Lemma norm_is_obj v fs : norm v = VObj fs -> exists fs', v = VObj fs' /\ fs = norm_fields fs'.
Proof.
  destruct v; simpl; try discriminate.
  rewrite <- norm_obj. rewrite norm_obj. intros H. injection H as <-. eauto.
Qed.

Lemma truthy_norm v : truthy (norm v) = truthy v.
Proof. destruct v; simpl; rewrite ?norm_obj; reflexivity. Qed.

(** Two objects with the same normal form agree, up to property order, on
    every property. *)
Lemma norm_get v fs k :
  norm v = norm (VObj fs) -> norm (get v k) = norm (get_fs fs k).
Proof.
  rewrite norm_obj. intros H. apply norm_is_obj in H as (fs' & -> & Hfs).
  unfold get, get_fs; simpl.
  assert (E : option_map norm (lookup k fs') = option_map norm (lookup k fs)).
  { rewrite <- !lookup_norm_fields, Hfs. reflexivity. }
  destruct (lookup k fs'), (lookup k fs); simpl in E; try discriminate;
    try (injection E as E); auto.
Qed.

Lemma nullish_undef v : is_nullish v = false -> is_undef v = false.
Proof. destruct v; simpl; congruence. Qed.

Lemma truthy_undef v : truthy v = true -> is_undef v = false.
Proof. destruct v; simpl; congruence. Qed.

Lemma default_arg_defined v : is_undef (default_arg v (VArr [])) = false.
Proof. destruct v; reflexivity. Qed.

(** ** The entry module, against any collaborators meeting their contracts *)

Section Claims.

Variable cenc : val -> option (list Byte.byte).
Variable cdec : list Byte.byte -> option val.
Variable chash : list Byte.byte -> string.
Variable Clock : val -> val.

(** The dag-cbor contract (spec 4.1): the bytes depend on a value only up to
    property order; decoding them gives the value back up to property
    order; [undefined] is refused. *)
Hypothesis codec_canonical : forall v, cenc (norm v) = cenc v.
Hypothesis codec_roundtrip :
  forall v bs, cenc v = Some bs -> exists w, cdec bs = Some w /\ norm w = norm v.
Hypothesis codec_rejects_undefined :
  forall fs k, lookup k fs = Some VUndef -> cenc (VObj fs) = None.
(** [Clock(publicKey)] is a clock value (spec: [{id, time}]). *)
Hypothesis Clock_defined : forall k, Clock k <> VUndef.

Lemma snd_block_encode v :
  snd (block_encode cenc chash v) =
  match cenc v with Some bs => Ok (chash bs, bs) | None => Throw Foreign end.
Proof. unfold block_encode. msimpl. destruct (cenc v); reflexivity. Qed.

Lemma snd_block_decode bs :
  snd (block_decode cdec chash bs) =
  match cdec bs with Some v => Ok (v, chash bs) | None => Throw Foreign end.
Proof. unfold block_decode. msimpl. destruct (cdec bs); reflexivity. Qed.

Ltac run_in H :=
  repeat (progress (rewrite ?snd_bind, ?snd_block_encode, ?snd_block_decode,
                      ?snd_catch_as in H; simpl in H)
          || discriminate
          || match type of H with
             | context [match ?x with Some _ => _ | None => _ end] =>
                 let E := fresh "E" in destruct x eqn:E
             end).

(** What a successful [create] did, and the entry it returns. *)
Lemma create_ok identity id payload f clock next refs e :
  snd (create cenc chash Clock (Some identity) id payload f clock next refs) = Ok e ->
  let next' := default_arg next (VArr []) in
  let refs' := default_arg refs (VArr []) in
  let clk := if truthy clock then clock else Clock (publicKey identity) in
  is_nullish id = false /\ is_nullish payload = false /\ is_array next' = true /\
  exists encP bs s,
    match f with
    | None => encP = VUndef
    | Some g => exists pbs c, cenc payload = Some pbs /\ g pbs = Some c /\ encP = VBytes c
    end /\
    cenc (VObj [("id", id); ("payload", js_or encP payload); ("next", next');
                ("refs", refs'); ("clock", clk); ("v", VNum 2)]) = Some bs /\
    sign identity bs = Some s /\
    e = VObj ([("id", id); ("payload", payload); ("next", next'); ("refs", refs');
               ("clock", clk); ("v", VNum 2); ("key", publicKey identity);
               ("identity", identity_hash identity); ("sig", s)] ++
              match f with Some _ => [("_payload", encP)] | None => [] end).
Proof.
  unfold create. cbv zeta. intros H.
  destruct (is_nullish id) eqn:Hid; [discriminate|].
  destruct (is_nullish payload) eqn:Hp; [discriminate|].
  destruct (is_nullish (default_arg next (VArr [])) ||
            negb (is_array (default_arg next (VArr [])))) eqn:Hn; [discriminate|].
  apply orb_false_iff in Hn as [_ Hn]. apply negb_false_iff in Hn.
  repeat split; auto.
  rewrite snd_bind in H.
  destruct (truthy clock) eqn:Hc; simpl in H;
    (destruct f as [g|]; [run_in H | run_in H]);
    injection H as <-; do 3 eexists; (split; [|split; [eassumption|split; [eassumption|reflexivity]]]);
    eauto.
Qed.

(** C1. For valid input and no payload encryption, the entry returned by
    [create] verifies: [verify(identities, create(identity, id, payload,
    undefined, clock, next, refs))] resolves to [true], whenever the identity
    system accepts the signatures [identity.sign] makes under
    [identity.publicKey] (a non-empty key, non-empty signatures). *)
Theorem create_then_verify (identity : Identity) (identities : Identities)
    (id payload clock next refs e : val) :
  truthy (publicKey identity) = true ->
  (forall bs s, sign identity bs = Some s ->
     truthy s = true /\ verify_sig identities s (publicKey identity) bs = Some true) ->
  snd (create cenc chash Clock (Some identity) id payload None clock next refs) = Ok e ->
  snd (verify cenc chash (Some identities) e) = Ok true.
Proof.
  intros Hpk Hsig H.
  apply create_ok in H as (Hid & Hp & Hn & encP & bs & s & -> & Hbs & Hs & ->).
  destruct (Hsig _ _ Hs) as [Hst Hv].
  unfold verify, isEntry, get, get_fs, js_and. simpl.
  rewrite (nullish_undef _ Hid), (nullish_undef _ Hp), !default_arg_defined.
  destruct (default_arg next (VArr [])) eqn:En; try discriminate Hn.
  assert (Hclk : is_undef (if truthy clock then clock else Clock (publicKey identity)) = false).
  { destruct (truthy clock) eqn:Hc; [apply truthy_undef; exact Hc|].
    specialize (Clock_defined (publicKey identity)).
    destruct (Clock (publicKey identity)); simpl; congruence. }
  rewrite Hclk. simpl. rewrite Hpk, Hst. simpl.
  msimpl. rewrite snd_block_encode.
  unfold verify_value, get, get_fs. simpl.
  rewrite Hbs. simpl. rewrite Hv. reflexivity.
Qed.

Lemma get_fs_upd k k' v fs :
  get_fs (upd k' v fs) k = if String.eqb k k' then v else get_fs fs k.
Proof. unfold get_fs. rewrite lookup_upd. destruct (String.eqb k k'); reflexivity. Qed.

Lemma get_fs_del k k' fs : k <> k' -> get_fs (del k' fs) k = get_fs fs k.
Proof. intros H. unfold get_fs. rewrite lookup_del by exact H. reflexivity. Qed.

Lemma snd_encode_plain e f :
  snd (encode cenc chash e None f) =
  match cenc (VObj (encode_value e f)) with
  | Some bs => Ok (chash bs, bs)
  | None => Throw Foreign
  end.
Proof.
  unfold encode. rewrite snd_bind, snd_block_encode.
  destruct (cenc _); reflexivity.
Qed.

Lemma snd_decode_plain bs :
  snd (decode cdec chash bs None None) =
  match cdec bs with
  | Some w => Ok (VObj (upd "hash" (VStr (chash bs)) (own_props w)))
  | None => Throw Foreign
  end.
Proof.
  unfold decode. msimpl. rewrite snd_block_decode.
  destruct (cdec bs); reflexivity.
Qed.

(** C3. Without encryption, [decode(encode(e).bytes)] gives back every
    property of the entry [e] except [_payload] and [hash] (so every signed
    field [id], [payload], [next], [refs], [clock], [v] and also [key],
    [identity], [sig]), deeply equal up to property order (dag-cbor writes
    and so reads back object keys in its canonical order), and its [hash] is
    the hash [encode(e)] returned. *)
Theorem encode_decode_roundtrip (fs : list (string * val)) h bs :
  snd (encode cenc chash (VObj fs) None None) = Ok (h, bs) ->
  exists d,
    snd (decode cdec chash bs None None) = Ok d /\
    (forall k, k <> "_payload" -> k <> "hash" -> norm (get d k) = norm (get_fs fs k)) /\
    get d "hash" = VStr h.
Proof.
  rewrite snd_encode_plain. destruct (cenc _) as [bs0|] eqn:Henc; [|discriminate].
  intros H. injection H as <- <-.
  destruct (codec_roundtrip _ _ Henc) as (w & Hdec & Hw).
  rewrite snd_decode_plain, Hdec. eexists. split; [reflexivity|]. split.
  - intros k Hk1 Hk2. unfold get at 1. simpl. rewrite get_fs_upd.
    destruct (String.eqb_spec k "hash"); [contradiction|].
    apply (norm_get w (encode_value (VObj fs) None) k) in Hw.
    unfold get in Hw. rewrite Hw. unfold encode_value. simpl.
    rewrite !get_fs_del by assumption. reflexivity.
  - unfold get. simpl. rewrite get_fs_upd. reflexivity.
Qed.

(** ** [isEntry], and [verify] on a well-formed entry *)

Lemma falsy_no_props v : truthy v = false -> own_props v = [].
Proof.
  destruct v; simpl; try discriminate; try reflexivity.
  destruct (String.eqb_spec s "") as [->|]; [reflexivity|discriminate].
Qed.

Lemma isEntry_truthy v :
  truthy (isEntry v) = true <->
  (is_undef (get v "id") = false /\ is_undef (get v "next") = false /\
   is_undef (get v "payload") = false /\ is_undef (get v "v") = false /\
   is_undef (get v "clock") = false /\ is_undef (get v "refs") = false).
Proof.
  unfold isEntry, js_and. destruct (truthy v) eqn:Hv.
  - destruct (is_undef (get v "id")), (is_undef (get v "next")),
      (is_undef (get v "payload")), (is_undef (get v "v")),
      (is_undef (get v "clock")), (is_undef (get v "refs"));
      simpl; rewrite ?Hv; simpl; intuition congruence.
  - rewrite !Hv. unfold get. rewrite (falsy_no_props v Hv). simpl.
    rewrite ?Hv. intuition congruence.
Qed.

Lemma isEntry_value v : isEntry v = VBool (truthy (isEntry v)) \/ truthy v = false /\ isEntry v = v.
Proof.
  unfold isEntry, js_and. destruct (truthy v) eqn:Hv; [|right; rewrite !Hv; auto].
  left. destruct (negb (is_undef (get v "id"))), (negb (is_undef (get v "next"))),
      (negb (is_undef (get v "payload"))), (negb (is_undef (get v "v"))),
      (negb (is_undef (get v "clock"))), (negb (is_undef (get v "refs")));
      reflexivity.
Qed.

Lemma snd_verify_ok ids v :
  truthy (isEntry v) = true -> truthy (get v "key") = true -> truthy (get v "sig") = true ->
  snd (verify cenc chash (Some ids) v) =
  match cenc (verify_value v) with
  | Some b =>
      match verify_sig ids (get v "sig") (get v "key") b with
      | Some r => Ok r
      | None => Throw Foreign
      end
  | None => Throw Foreign
  end.
Proof.
  intros H1 H2 H3. unfold verify. rewrite H1, H2, H3. simpl.
  rewrite snd_bind, snd_block_encode. destruct (cenc _); reflexivity.
Qed.

Lemma norm_js_or a b a' b' :
  norm a = norm a' -> norm b = norm b' -> norm (js_or a b) = norm (js_or a' b').
Proof.
  intros Ha Hb. unfold js_or.
  rewrite <- (truthy_norm a), <- (truthy_norm a'), Ha.
  destruct (truthy (norm a')); assumption.
Qed.

Lemma norm_is_undef a b : norm a = norm b -> is_undef a = is_undef b.
Proof.
  intros H.
  assert (K : forall x, is_undef x = true <-> x = VUndef)
    by (intros []; simpl; intuition congruence).
  destruct (is_undef a) eqn:Ha, (is_undef b) eqn:Hb; auto.
  - apply K in Ha; subst. simpl in H. symmetry in H. apply norm_VUndef in H.
    subst. discriminate.
  - apply K in Hb; subst. simpl in H. apply norm_VUndef in H. subst. discriminate.
Qed.

(** The snapshot [verify] signs depends on the entry only through seven
    properties, up to property order. *)
Lemma norm_verify_value x y :
  (forall k, In k ["id"; "payload"; "_payload"; "next"; "refs"; "clock"; "v"] ->
     norm (get x k) = norm (get y k)) ->
  norm (verify_value x) = norm (verify_value y).
Proof.
  intros H. unfold verify_value. rewrite !norm_obj.
  assert (G : forall z k, get (VObj (own_props z)) k = get z k) by reflexivity.
  rewrite !G. simpl.
  rewrite (H "id"), (H "next"), (H "refs"), (H "clock"), (H "v") by (simpl; tauto).
  rewrite (norm_js_or (get x "_payload") (get x "payload") (get y "_payload") (get y "payload"))
    by (apply H; simpl; tauto).
  reflexivity.
Qed.

Lemma snd_decrypt_payload_layer g fs :
  snd (decrypt_payload_layer cdec chash g (VObj fs)) =
  match g (get_fs fs "payload") with
  | Some b =>
      match cdec b with
      | Some dp => Ok (VObj (upd "payload" dp (upd "_payload" (get_fs fs "payload") fs)))
      | None => Throw Foreign
      end
  | None => Throw Foreign
  end.
Proof.
  unfold decrypt_payload_layer. msimpl.
  destruct (g _); simpl; [|reflexivity].
  msimpl. rewrite snd_block_decode. destruct (cdec _); reflexivity.
Qed.

Lemma snd_decode_payload bs g :
  snd (decode cdec chash bs None (Some g)) =
  match cdec bs with
  | Some w =>
      match snd (decrypt_payload_layer cdec chash g w) with
      | Ok x => Ok (VObj (upd "hash" (VStr (chash bs)) (own_props x)))
      | Throw _ => Throw (Error "Could not decrypt payload")
      end
  | None => Throw Foreign
  end.
Proof.
  unfold decode. msimpl. rewrite snd_block_decode.
  destruct (cdec bs); simpl; [|reflexivity].
  msimpl. destruct (snd (decrypt_payload_layer cdec chash g v)); reflexivity.
Qed.

(** C7. [isEntry(obj)] is [true] exactly when the six properties [id],
    [next], [payload], [v], [clock], [refs] of [obj] are all defined; no
    other property ([key], [sig], [hash], ...) matters. *)
Theorem isEntry_iff (obj : val) :
  isEntry obj = VBool true <->
  (get obj "id" <> VUndef /\ get obj "next" <> VUndef /\ get obj "payload" <> VUndef /\
   get obj "v" <> VUndef /\ get obj "clock" <> VUndef /\ get obj "refs" <> VUndef).
Proof.
  assert (U : forall x, is_undef x = false <-> x <> VUndef)
    by (intros []; simpl; intuition congruence).
  rewrite <- !U, <- isEntry_truthy.
  destruct (isEntry_value obj) as [H | [Hf H]]; rewrite H.
  - simpl. destruct (truthy (isEntry obj)); intuition congruence.
  - rewrite Hf. split; [intros ->; discriminate | discriminate].
Qed.

(** C2. With payload encryption, for an entry [e] created with
    [encryptPayloadFn] and a matching [decryptPayloadFn] (it inverts the
    encryption on the ciphertext bytes): [decode(encode(e, undefined,
    encryptPayloadFn).bytes, undefined, decryptPayloadFn)] succeeds, its
    [payload] is the original plaintext (deeply, up to property order), and
    [verify] returns [true] on both [e] and the decoded entry, because the
    snapshot it signs carries the cached ciphertext [_payload].  The identity
    system accepts the (non-empty string) signatures of [identity.sign]
    under the (non-empty string) [identity.publicKey]. *)
Theorem encrypted_payload_roundtrip (identity : Identity) (identities : Identities)
    (enc : EncryptFn) (dec : DecryptFn) (id payload clock next refs e : val)
    (h : string) (bs : list Byte.byte) :
  (exists pk, publicKey identity = VStr pk /\ pk <> "") ->
  (forall b s, sign identity b = Some s ->
     (exists str, s = VStr str /\ str <> "") /\
     verify_sig identities s (publicKey identity) b = Some true) ->
  (forall b c, enc b = Some c -> dec (VBytes c) = Some b) ->
  snd (create cenc chash Clock (Some identity) id payload (Some enc) clock next refs) = Ok e ->
  snd (encode cenc chash e None (Some enc)) = Ok (h, bs) ->
  exists d,
    snd (decode cdec chash bs None (Some dec)) = Ok d /\
    norm (get d "payload") = norm payload /\
    snd (verify cenc chash (Some identities) e) = Ok true /\
    snd (verify cenc chash (Some identities) d) = Ok true.
Proof.
  intros (pk & Hpk & Hpk0) Hsig Hinv Hc Henc.
  apply create_ok in Hc as (Hid & Hp & Hn & encP & bsig & s & (pbs & c & Hpbs & Hcy & ->) & Hbsig & Hs & ->).
  destruct (Hsig _ _ Hs) as ((str & -> & Hstr) & Hv).
  assert (Hclk : is_undef (if truthy clock then clock else Clock (publicKey identity)) = false).
  { destruct (truthy clock) eqn:Hc0; [apply truthy_undef; exact Hc0|].
    specialize (Clock_defined (publicKey identity)).
    destruct (Clock (publicKey identity)); simpl; congruence. }
  rewrite Hpk in *.
  set (clk := if truthy clock then clock else Clock (VStr pk)) in *.
  set (next' := default_arg next (VArr [])) in *.
  set (refs' := default_arg refs (VArr [])) in *.
  set (e := VObj ([("id", id); ("payload", payload); ("next", next'); ("refs", refs');
                   ("clock", clk); ("v", VNum 2); ("key", VStr pk);
                   ("identity", identity_hash identity); ("sig", VStr str)] ++
                  [("_payload", VBytes c)])).
  assert (Hpk1 : truthy (VStr pk) = true)
    by (simpl; destruct (String.eqb_spec pk ""); [contradiction|reflexivity]).
  assert (Hstr1 : truthy (VStr str) = true)
    by (simpl; destruct (String.eqb_spec str ""); [contradiction|reflexivity]).
  assert (HnU : is_undef next' = false) by (destruct next'; try discriminate Hn; reflexivity).
  (* the created entry *)
  assert (He_entry : truthy (isEntry e) = true).
  { apply isEntry_truthy. unfold get, get_fs; simpl.
    rewrite (nullish_undef _ Hid), (nullish_undef _ Hp), HnU, Hclk.
    unfold refs'. rewrite default_arg_defined. repeat split. }
  assert (He_value : cenc (verify_value e) = Some bsig) by exact Hbsig.
  assert (Hve : snd (verify cenc chash (Some identities) e) = Ok true).
  { rewrite snd_verify_ok; [| exact He_entry | exact Hpk1 | exact Hstr1].
    rewrite He_value. unfold get, get_fs. simpl. rewrite Hv. reflexivity. }
  (* encode *)
  rewrite snd_encode_plain in Henc.
  match type of Henc with
  | context [cenc ?x] => destruct (cenc x) as [b0|] eqn:Hev; [|discriminate]
  end.
  injection Henc as <- <-.
  destruct (codec_roundtrip _ _ Hev) as (w & Hdec & Hw).
  destruct (codec_roundtrip _ _ Hpbs) as (dp & Hdp & Hdpn).
  pose proof Hw as Hw'. rewrite norm_obj in Hw'.
  apply norm_is_obj in Hw' as (fsw & -> & _).
  assert (Gw : forall k, norm (get_fs fsw k) = norm (get_fs (encode_value e (Some enc)) k))
    by (intros k; exact (norm_get _ _ k Hw)).
  assert (Hwp : get_fs fsw "payload" = VBytes c)
    by (apply norm_VBytes; rewrite (Gw "payload"); reflexivity).
  (* decode *)
  rewrite snd_decode_payload, Hdec, snd_decrypt_payload_layer, Hwp, (Hinv _ _ Hcy), Hdp.
  eexists. split; [reflexivity|].
  set (d := VObj (upd "hash" (VStr (chash b0))
                   (own_props (VObj (upd "payload" dp (upd "_payload" (VBytes c) fsw)))))).
  assert (Gd : forall k, k <> "hash" -> k <> "payload" -> k <> "_payload" ->
                 norm (get d k) = norm (get e k)).
  { intros k H1 H2 H3. unfold d, get. simpl. rewrite !get_fs_upd.
    destruct (String.eqb_spec k "hash"); [contradiction|].
    destruct (String.eqb_spec k "payload"); [contradiction|].
    destruct (String.eqb_spec k "_payload"); [contradiction|].
    rewrite Gw. unfold encode_value, get_fs. simpl.
    str_cases; try congruence; reflexivity. }
  assert (Gdp : get d "payload" = dp)
    by (unfold d, get; simpl; rewrite !get_fs_upd; reflexivity).
  assert (Gd_ : get d "_payload" = VBytes c)
    by (unfold d, get; simpl; rewrite !get_fs_upd; reflexivity).
  split; [rewrite Gdp; exact Hdpn|].
  split; [exact Hve|].
  (* verify the decoded entry *)
  assert (Hd7 : forall k, In k ["id"; "payload"; "_payload"; "next"; "refs"; "clock"; "v"] ->
                  norm (get d k) = norm (get e k)).
  { intros k Hk. simpl in Hk.
    destruct Hk as [<-|[<-|[<-|[<-|[<-|[<-|[<-|[]]]]]]]];
      try (apply Gd; discriminate).
    - rewrite Gdp. exact Hdpn.
    - rewrite Gd_. reflexivity. }
  assert (Hd_entry : truthy (isEntry d) = true).
  { apply isEntry_truthy in He_entry. apply isEntry_truthy.
    rewrite !(fun k H => norm_is_undef _ _ (Hd7 k H)) by (simpl; tauto).
    exact He_entry. }
  assert (Hkey : get d "key" = VStr pk)
    by (apply norm_VStr; rewrite Gd by discriminate; reflexivity).
  assert (Hsigd : get d "sig" = VStr str)
    by (apply norm_VStr; rewrite Gd by discriminate; reflexivity).
  rewrite snd_verify_ok; [| exact Hd_entry | rewrite Hkey; exact Hpk1 | rewrite Hsigd; exact Hstr1].
  rewrite <- codec_canonical, (norm_verify_value d e Hd7), codec_canonical, He_value.
  rewrite Hkey, Hsigd, Hv. reflexivity.
Qed.

(** C4. [create] validates its arguments before calling any collaborator:
    when [identity] is null or undefined, or [id] is, or [payload] is, or
    [next] (the parameter, an omitted or undefined argument taking its
    default [[]]) is not an array, it throws one of its four argument errors
    and has called nothing (no clock, encryption, codec or signer); when none
    of these holds, the error branch is not taken: [create] goes on to call
    its collaborators. *)
Theorem create_validation (identity : option Identity) (id payload : val)
    (f : option EncryptFn) (clock next refs : val) :
  let r := create cenc chash Clock identity id payload f clock next refs in
  let invalid := identity = None \/ is_nullish id = true \/ is_nullish payload = true \/
                 is_array (default_arg next (VArr [])) = false in
  (invalid ->
     fst r = [] /\
     exists msg, snd r = Throw (Error msg) /\
       In msg ["Identity is required, cannot create entry"; "Entry requires an id";
               "Entry requires a payload"; "'next' argument is not an array"]) /\
  (~ invalid -> fst r <> []).
Proof.
  cbv zeta. split.
  - intros Hinv. destruct identity as [I|].
    + unfold create. cbv zeta.
      destruct (is_nullish id) eqn:Hid.
      { split; [reflexivity|]. eexists; split; [reflexivity|simpl; tauto]. }
      destruct (is_nullish payload) eqn:Hp.
      { split; [reflexivity|]. eexists; split; [reflexivity|simpl; tauto]. }
      destruct (is_nullish (default_arg next (VArr [])) ||
                negb (is_array (default_arg next (VArr [])))) eqn:Hn.
      { split; [reflexivity|]. eexists; split; [reflexivity|simpl; tauto]. }
      exfalso. apply orb_false_iff in Hn as [_ Hn]. apply negb_false_iff in Hn.
      destruct Hinv as [H|[H|[H|H]]]; congruence.
    + split; [reflexivity|]. eexists; split; [reflexivity|simpl; tauto].
  - intros Hval. destruct identity as [I|]; [|exfalso; tauto].
    destruct (is_nullish id) eqn:Hid; [exfalso; tauto|].
    destruct (is_nullish payload) eqn:Hp; [exfalso; tauto|].
    destruct (is_array (default_arg next (VArr []))) eqn:Hn; [|exfalso; tauto].
    unfold create. cbv zeta. rewrite Hid, Hp, Hn.
    assert (Hnn : is_nullish (default_arg next (VArr [])) = false)
      by (destruct (default_arg next (VArr [])); simpl in *; congruence).
    rewrite Hnn. simpl. rewrite fst_bind.
    destruct (truthy clock); simpl; [|discriminate].
    rewrite fst_bind. destruct f as [g|]; simpl.
    + unfold block_encode. rewrite !fst_bind. simpl. discriminate.
    + rewrite fst_bind. unfold block_encode. rewrite !fst_bind. simpl. discriminate.
Qed.

(** C5 (as amended).  [verify] throws one of its own four errors, before
    calling any collaborator, exactly when [identities] is missing,
    [isEntry(entry)] is not truthy, [entry.key] is falsy or [entry.sig] is
    falsy.  Otherwise it throws none of them: it resolves to the boolean
    [identities.verify] gives for the signature, the key and the encoded
    signing snapshot (so a mismatch is [false]), and the only errors it can
    raise are those of the codec or of the identity provider, propagated. *)
Theorem verify_errors (identities : option Identities) (entry : val) :
  let r := verify cenc chash identities entry in
  let structural := identities = None \/ truthy (isEntry entry) = false \/
                    truthy (get entry "key") = false \/ truthy (get entry "sig") = false in
  (structural ->
     fst r = [] /\
     exists msg, snd r = Throw (Error msg) /\
       In msg ["Identities is required, cannot verify entry"; "Invalid Log entry";
               "Entry doesn't have a key"; "Entry doesn't have a signature"]) /\
  (~ structural ->
     exists ids, identities = Some ids /\
       snd r = match cenc (verify_value entry) with
               | Some b =>
                   match verify_sig ids (get entry "sig") (get entry "key") b with
                   | Some ok => Ok ok
                   | None => Throw Foreign
                   end
               | None => Throw Foreign
               end).
Proof.
  cbv zeta. split.
  - intros Hs. destruct identities as [ids|].
    + unfold verify.
      destruct (truthy (isEntry entry)) eqn:H1; simpl.
      2: { split; [reflexivity|]. eexists; split; [reflexivity|simpl; tauto]. }
      destruct (truthy (get entry "key")) eqn:H2; simpl.
      2: { split; [reflexivity|]. eexists; split; [reflexivity|simpl; tauto]. }
      destruct (truthy (get entry "sig")) eqn:H3; simpl.
      2: { split; [reflexivity|]. eexists; split; [reflexivity|simpl; tauto]. }
      exfalso. destruct Hs as [H|[H|[H|H]]]; congruence.
    + split; [reflexivity|]. eexists; split; [reflexivity|simpl; tauto].
  - intros Hs. destruct identities as [ids|]; [|exfalso; tauto].
    exists ids. split; [reflexivity|].
    apply snd_verify_ok;
      match goal with |- ?x = true => destruct x eqn:?; [reflexivity|exfalso; tauto] end.
Qed.

(** C6. [decode] is all-or-nothing.  With [decryptEntryFn], any failure of
    the entry-level step (decoding the wrapper block or decrypting it)
    throws [Error("Could not decrypt entry")]; with [decryptPayloadFn],
    any failure of the payload step (reading the payload, decrypting it,
    decoding the plaintext block or storing the result) throws
    [Error("Could not decrypt payload")]; and an entry is returned only
    when every requested layer completed: it is the fully decrypted
    entry with its hash. *)
Theorem decode_all_or_nothing (bs : list Byte.byte) (fE fP : option DecryptFn) :
  (forall f, fE = Some f -> failed (snd (decrypt_entry_layer cdec chash f bs)) = true ->
     snd (decode cdec chash bs fE fP) = Throw (Error "Could not decrypt entry")) /\
  (forall g bs' cid w, fP = Some g ->
     match fE with
     | Some f => snd (decrypt_entry_layer cdec chash f bs) = Ok (bs', cid)
     | None => bs' = bs
     end ->
     cdec bs' = Some w ->
     failed (snd (decrypt_payload_layer cdec chash g w)) = true ->
     snd (decode cdec chash bs fE fP) = Throw (Error "Could not decrypt payload")) /\
  (forall d, snd (decode cdec chash bs fE fP) = Ok d ->
     exists bs' hash w x,
       match fE with
       | Some f => snd (decrypt_entry_layer cdec chash f bs) = Ok (bs', hash)
       | None => bs' = bs /\ hash = chash bs
       end /\
       cdec bs' = Some w /\
       match fP with
       | Some g => snd (decrypt_payload_layer cdec chash g w) = Ok x
       | None => x = w
       end /\
       d = VObj (upd "hash" (VStr hash) (own_props x))).
Proof.
  split; [|split].
  - intros f -> Hf. unfold decode. msimpl.
    destruct (snd (decrypt_entry_layer cdec chash f bs)); [discriminate|reflexivity].
  - intros g bs' cid w -> HE Hw Hg. unfold decode. msimpl.
    destruct fE as [f|].
    + rewrite snd_catch_as, snd_bind, HE. simpl. msimpl.
      rewrite snd_block_decode, Hw. simpl. msimpl.
      destruct (snd (decrypt_payload_layer cdec chash g w)); [discriminate|reflexivity].
    + subst bs'. simpl. msimpl. rewrite snd_block_decode, Hw. simpl. msimpl.
      destruct (snd (decrypt_payload_layer cdec chash g w)); [discriminate|reflexivity].
  - intros d. unfold decode. rewrite snd_bind.
    destruct fE as [f|].
    + rewrite snd_catch_as, snd_bind.
      destruct (snd (decrypt_entry_layer cdec chash f bs)) as [[bs' h]|] eqn:HE;
        simpl; [|discriminate].
      msimpl. rewrite snd_block_decode.
      destruct (cdec bs') as [w|] eqn:Hw; simpl; [|discriminate].
      msimpl. destruct fP as [g|].
      * rewrite snd_catch_as.
        destruct (snd (decrypt_payload_layer cdec chash g w)) as [x|] eqn:Hg;
          simpl; [|discriminate].
        intros H. injection H as <-. exists bs', h, w, x. auto.
      * simpl. intros H. injection H as <-. exists bs', h, w, w. auto.
    + simpl. msimpl. rewrite snd_block_decode.
      destruct (cdec bs) as [w|] eqn:Hw; simpl; [|discriminate].
      msimpl. destruct fP as [g|].
      * rewrite snd_catch_as.
        destruct (snd (decrypt_payload_layer cdec chash g w)) as [x|] eqn:Hg;
          simpl; [|discriminate].
        intros H. injection H as <-. exists bs, (chash bs), w, x. auto.
      * simpl. intros H. injection H as <-. exists bs, (chash bs), w, w. auto.
Qed.

Lemma true_truthy v : v = VBool true -> truthy v = true.
Proof. intros ->. reflexivity. Qed.

Lemma strict_eq_undef_r x : truthy x = true -> strict_eq x VUndef = false.
Proof. destruct x; simpl; congruence. Qed.

(** C8 (as amended).  [isEqual(a, b)] is [true] exactly when [a] and [b]
    are truthy, [a.hash] is truthy and [a.hash === b.hash]; in every other
    case its result is falsy (the first falsy operand of the [&&] chain,
    e.g. [undefined] or [""], not necessarily [false]).  In particular it is
    falsy whenever [a.hash] or [b.hash] is undefined, so a hash-less entry is
    not equal even to itself. *)
Theorem isEqual_spec (a b : val) :
  (isEqual a b = VBool true <->
     truthy a = true /\ truthy b = true /\ truthy (get a "hash") = true /\
     strict_eq (get a "hash") (get b "hash") = true) /\
  (isEqual a b <> VBool true -> truthy (isEqual a b) = false) /\
  (is_undef (get a "hash") = true \/ is_undef (get b "hash") = true ->
     truthy (isEqual a b) = false).
Proof.
  unfold isEqual, js_and.
  destruct (truthy a) eqn:Ha; simpl; repeat (rewrite Ha; simpl).
  2: { split; [split; [intros H; apply true_truthy in H; congruence|intuition congruence]|].
       split; intros; first [reflexivity|assumption]. }
  destruct (truthy b) eqn:Hb; simpl; repeat (rewrite Hb; simpl).
  2: { split; [split; [intros H; apply true_truthy in H; congruence|intuition congruence]|].
       split; intros; first [reflexivity|assumption]. }
  destruct (truthy (get a "hash")) eqn:Hh; simpl; repeat (rewrite Hh; simpl).
  2: { split; [split; [intros H; apply true_truthy in H; congruence|intuition congruence]|].
       split; intros; first [reflexivity|assumption]. }
  split; [split; [intros H; injection H as ->; auto|intros (_ & _ & _ & ->); reflexivity]|].
  split.
  - destruct (strict_eq _ _); [congruence|reflexivity].
  - intros [Hu|Hu].
    + apply truthy_undef in Hh. congruence.
    + destruct (get b "hash"); try discriminate. rewrite strict_eq_undef_r by exact Hh.
      reflexivity.
Qed.

(** C9 (as amended).  When [encode] is given an [encryptPayloadFn] and the
    entry has no [_payload], the object handed to the codec has [payload]
    undefined ([encode] itself neither encrypts nor checks anything).  A
    canonical codec rejects an undefined property, so the payload is not
    silently dropped: [encode] fails with the codec's error after that single
    codec call, and no bytes are produced. *)
Theorem encode_uncached_payload (fs : list (string * val)) (ef : option EncryptFn)
    (f : EncryptFn) :
  get_fs fs "_payload" = VUndef ->
  lookup "payload" (encode_value (VObj fs) (Some f)) = Some VUndef /\
  fst (encode cenc chash (VObj fs) ef (Some f)) = [CEncode] /\
  snd (encode cenc chash (VObj fs) ef (Some f)) = Throw Foreign.
Proof.
  intros Hp.
  assert (Hl : lookup "payload" (encode_value (VObj fs) (Some f)) = Some VUndef).
  { unfold encode_value. simpl own_props. cbv iota beta.
    rewrite lookup_del by discriminate. rewrite lookup_del by discriminate.
    rewrite lookup_upd. simpl. rewrite Hp. reflexivity. }
  pose proof (codec_rejects_undefined _ _ Hl) as Hc.
  split; [exact Hl|].
  unfold encode, block_encode, bind, invoke. rewrite Hc. split; reflexivity.
Qed.

(** C10. [decode] does not validate what it decodes: the canonical
    encoding of any object lacking one of [id], [next], [payload], [v],
    [clock], [refs] decodes successfully, to an object that carries a
    [hash] and for which [isEntry] is not [true]. *)
Theorem decode_no_validation (fs : list (string * val)) (bs : list Byte.byte) :
  (exists k, In k ["id"; "next"; "payload"; "v"; "clock"; "refs"] /\ get_fs fs k = VUndef) ->
  cenc (VObj fs) = Some bs ->
  exists d,
    snd (decode cdec chash bs None None) = Ok d /\
    isEntry d <> VBool true /\
    get d "hash" = VStr (chash bs).
Proof.
  intros (k & Hk & Hu) Henc.
  destruct (codec_roundtrip _ _ Henc) as (w & Hdec & Hw).
  rewrite snd_decode_plain, Hdec.
  set (d := VObj (upd "hash" (VStr (chash bs)) (own_props w))).
  exists d. split; [reflexivity|]. split.
  - assert (Hdk : get d k = VUndef).
    { unfold d, get at 1. simpl. rewrite get_fs_upd.
      destruct (String.eqb_spec k "hash") as [->|_].
      { simpl in Hk. intuition discriminate. }
      apply (norm_get w fs k) in Hw. rewrite Hu in Hw. apply norm_VUndef in Hw.
      exact Hw. }
    assert (Hf : truthy (isEntry d) = false).
    { destruct (truthy (isEntry d)) eqn:He; [|reflexivity].
      apply isEntry_truthy in He.
      simpl in Hk. destruct Hk as [<-|[<-|[<-|[<-|[<-|[<-|[]]]]]]];
        rewrite Hdk in He; simpl in He; intuition discriminate. }
    destruct (isEntry_value d) as [H|[_ H]].
    + rewrite H, Hf. discriminate.
    + rewrite H. unfold d. discriminate.
  - unfold d, get. simpl. rewrite get_fs_upd. reflexivity.
Qed.

End Claims.

(** ** The concrete codec meets the codec contract *)

Section ValInd.

Variable P : val -> Prop.
Hypothesis HUndef : P VUndef.
Hypothesis HNull : P VNull.
Hypothesis HBool : forall b, P (VBool b).
Hypothesis HNum : forall z, P (VNum z).
Hypothesis HStr : forall s, P (VStr s).
Hypothesis HBytes : forall bs, P (VBytes bs).
Hypothesis HArr : forall l, Forall P l -> P (VArr l).
Hypothesis HObj : forall fs, Forall (fun kv => P (snd kv)) fs -> P (VObj fs).

Fixpoint val_ind' (v : val) : P v :=
  match v with
  | VUndef => HUndef
  | VNull => HNull
  | VBool b => HBool b
  | VNum z => HNum z
  | VStr s => HStr s
  | VBytes bs => HBytes bs
  | VArr l =>
      HArr l ((fix go (l : list val) : Forall P l :=
                 match l with
                 | [] => Forall_nil _
                 | w :: r => Forall_cons _ (val_ind' w) (go r)
                 end) l)
  | VObj fs =>
      HObj fs ((fix go (fs : list (string * val)) : Forall (fun kv => P (snd kv)) fs :=
                  match fs with
                  | [] => Forall_nil _
                  | kv :: r => Forall_cons _ (val_ind' (snd kv)) (go r)
                  end) fs)
  end.

End ValInd.

Module ToyCodecFacts.

Import ToyCodec Byte.

Lemma ser_arr l : ser (VArr l) = x07 :: ser_list l.
Proof. reflexivity. Qed.

Lemma ser_obj fs : ser (VObj fs) = x08 :: ser_fields fs.
Proof. reflexivity. Qed.

Lemma size_arr l : size (VArr l) = S (size_list l).
Proof. reflexivity. Qed.

Lemma size_obj fs : size (VObj fs) = S (size_fields fs).
Proof. reflexivity. Qed.

Lemma size_pos v : 1 <= size v.
Proof. destruct v; simpl; lia. Qed.

Lemma parse_nat_ser n rest : parse_nat (ser_nat n ++ rest) = Some (n, rest).
Proof. induction n as [|n IH]; simpl; [|rewrite IH]; reflexivity. Qed.

Lemma parse_Z_ser z rest : parse_Z (ser_Z z ++ rest) = Some (z, rest).
Proof.
  unfold parse_Z, ser_Z. simpl. rewrite parse_nat_ser.
  destruct (Z.ltb_spec z 0); rewrite Z2Nat.id by lia; f_equal; f_equal; lia.
Qed.

Lemma parse_bytes_ser bs rest : parse_bytes (ser_bytes bs ++ rest) = Some (bs, rest).
Proof. induction bs as [|b bs IH]; simpl; [|rewrite IH]; reflexivity. Qed.

Lemma parse_str_ser s rest : parse_str (ser_str s ++ rest) = Some (s, rest).
Proof.
  induction s as [|c s IH]; simpl; [reflexivity|].
  rewrite IH, ascii_of_byte_of_ascii. reflexivity.
Qed.

Lemma parse_ser v : forall n rest, size v <= n -> parse n (ser v ++ rest) = Some (v, rest).
Proof.
  induction v as [| |b|z|s|bs|l IH|fs IH] using val_ind';
    intros [|n] rest Hn; try (simpl in Hn; lia).
  - reflexivity.
  - reflexivity.
  - destruct b; reflexivity.
  - cbn [ser app parse]. rewrite parse_Z_ser. reflexivity.
  - cbn [ser app parse]. rewrite parse_str_ser. reflexivity.
  - cbn [ser app parse]. rewrite parse_bytes_ser. reflexivity.
  - rewrite ser_arr. rewrite size_arr in Hn. simpl.
    assert (K : forall m, size_list l <= m -> parse_list m (ser_list l ++ rest) = Some (l, rest)).
    { clear Hn. induction IH as [|w r Hw _ IHr]; intros [|m] Hm; simpl in *; try lia.
      - reflexivity.
      - rewrite <- app_assoc, Hw by lia. rewrite IHr by lia. reflexivity. }
    rewrite K by lia. reflexivity.
  - rewrite ser_obj. rewrite size_obj in Hn. simpl.
    assert (K : forall m, size_fields fs <= m ->
                  parse_fields m (ser_fields fs ++ rest) = Some (fs, rest)).
    { clear Hn. induction IH as [|[k w] r Hw _ IHr]; intros [|m] Hm; simpl in *; try lia.
      - reflexivity.
      - rewrite <- !app_assoc, parse_str_ser, Hw by lia. rewrite IHr by lia.
        reflexivity. }
    rewrite K by lia. reflexivity.
Qed.

Lemma size_le_ser v : size v <= length (ser v).
Proof.
  induction v as [| |b|z|s|bs|l IH|fs IH] using val_ind'; try (simpl; lia).
  - destruct b; simpl; lia.
  - rewrite ser_arr, size_arr. simpl.
    enough (size_list l <= length (ser_list l)) by lia.
    induction IH as [|w r Hw _ IHr]; simpl; [lia|].
    rewrite length_app. lia.
  - rewrite ser_obj, size_obj. simpl.
    enough (size_fields fs <= length (ser_fields fs)) by lia.
    induction IH as [|[k w] r Hw _ IHr]; simpl in *; [lia|].
    rewrite !length_app. lia.
Qed.

Definition kv_le (a b : string * val) : Prop := String.leb (fst a) (fst b) = true.

Lemma insert_kv_sorted kv l : Sorted kv_le l -> Sorted kv_le (insert_kv kv l).
Proof.
  induction l as [|kv' r IH]; intros Hs; simpl.
  - repeat constructor.
  - destruct (String.leb (fst kv) (fst kv')) eqn:E.
    + constructor; [exact Hs|constructor; exact E].
    + apply Sorted_inv in Hs as [Hr Hh]. constructor; [exact (IH Hr)|].
      assert (Hk : kv_le kv' kv).
      { unfold kv_le. destruct (String.leb_total (fst kv) (fst kv')); congruence. }
      destruct r as [|kv'' r']; simpl; [constructor; exact Hk|].
      destruct (String.leb (fst kv) (fst kv'')); constructor; [exact Hk|].
      inversion Hh; assumption.
Qed.

Lemma norm_fields_sorted fs : Sorted kv_le (norm_fields fs).
Proof.
  induction fs as [|[k w] r IH]; simpl; [constructor|]. apply insert_kv_sorted, IH.
Qed.

Lemma in_insert_kv x kv l : In x (insert_kv kv l) <-> x = kv \/ In x l.
Proof.
  induction l as [|kv' r IH]; simpl; [firstorder congruence|].
  destruct (String.leb (fst kv) (fst kv')); simpl; [firstorder congruence|].
  rewrite IH. firstorder congruence.
Qed.

Lemma in_norm_fields kv fs :
  In kv (norm_fields fs) -> exists w, In (fst kv, w) fs /\ snd kv = norm w.
Proof.
  induction fs as [|[k w] r IH]; simpl; [tauto|].
  rewrite in_insert_kv. intros [->|H].
  - exists w. simpl. auto.
  - destruct (IH H) as (w' & Hin & Hw). eauto.
Qed.

Lemma norm_fields_fixed l :
  Sorted kv_le l -> Forall (fun kv => norm (snd kv) = snd kv) l -> norm_fields l = l.
Proof.
  induction l as [|[k w] r IH]; intros Hs Hn; simpl; [reflexivity|].
  apply Sorted_inv in Hs as [Hr Hh]. inversion Hn as [|? ? Hw Hrn]; subst. simpl in Hw.
  rewrite Hw, (IH Hr Hrn).
  destruct r as [|kv' r']; simpl; [reflexivity|].
  inversion Hh as [|? ? Hk]; subst. unfold kv_le in Hk. simpl in Hk. rewrite Hk.
  reflexivity.
Qed.

Lemma norm_idem v : norm (norm v) = norm v.
Proof.
  induction v as [| |b|z|s|bs|l IH|fs IH] using val_ind'; try reflexivity.
  - simpl. rewrite map_map. f_equal.
    induction IH as [|w r Hw _ IHr]; simpl; [reflexivity|]. rewrite Hw, IHr. reflexivity.
  - rewrite !norm_obj. f_equal. apply norm_fields_fixed; [apply norm_fields_sorted|].
    apply Forall_forall. intros kv Hin.
    destruct (in_norm_fields kv fs Hin) as (w & Hw & ->).
    rewrite Forall_forall in IH. exact (IH _ Hw).
Qed.

Lemma existsb_insert_kv f kv l : existsb f (insert_kv kv l) = f kv || existsb f l.
Proof.
  induction l as [|kv' r IH]; simpl; [reflexivity|].
  destruct (String.leb (fst kv) (fst kv')); simpl; [reflexivity|].
  rewrite IH. destruct (f kv), (f kv'); reflexivity.
Qed.

Lemma has_undef_norm v : has_undef (norm v) = has_undef v.
Proof.
  induction v as [| |b|z|s|bs|l IH|fs IH] using val_ind'; try reflexivity.
  - simpl. induction IH as [|w r Hw _ IHr]; simpl; [reflexivity|].
    rewrite Hw, IHr. reflexivity.
  - rewrite norm_obj. simpl.
    induction IH as [|[k w] r Hw _ IHr]; simpl in *; [reflexivity|].
    rewrite existsb_insert_kv. simpl. rewrite Hw, IHr. reflexivity.
Qed.

Lemma lookup_In k v fs : lookup k fs = Some v -> In (k, v) fs.
Proof.
  induction fs as [|[k' w] r IH]; simpl; [discriminate|].
  destruct (String.eqb_spec k k') as [->|_]; [intros H; injection H as ->; auto|].
  intros H. right. exact (IH H).
Qed.

Lemma toy_canonical v : cenc (norm v) = cenc v.
Proof. unfold cenc. rewrite has_undef_norm, norm_idem. reflexivity. Qed.

Lemma toy_roundtrip v bs :
  cenc v = Some bs -> exists w, cdec bs = Some w /\ norm w = norm v.
Proof.
  unfold cenc. destruct (has_undef v); [discriminate|]. intros H. injection H as <-.
  exists (norm v). split; [|apply norm_idem].
  unfold cdec.
  pose proof (parse_ser (norm v) (S (length (ser (norm v)))) [])
    as P.
  rewrite app_nil_r in P. rewrite P; [reflexivity|].
  pose proof (size_le_ser (norm v)). lia.
Qed.

Lemma toy_rejects_undefined fs k : lookup k fs = Some VUndef -> cenc (VObj fs) = None.
Proof.
  intros H. apply lookup_In in H. unfold cenc. simpl.
  replace (existsb (fun kv => has_undef (snd kv)) fs) with true; [reflexivity|].
  symmetry. apply existsb_exists. exists (k, VUndef). auto.
Qed.

Lemma toy_Clock_defined k : Clock k <> VUndef.
Proof. discriminate. Qed.

End ToyCodecFacts.

(** * Further properties of the entry module *)

Section Extras.

Variable cenc : val -> option (list Byte.byte).
Variable cdec : list Byte.byte -> option val.
Variable chash : list Byte.byte -> string.
Variable Clock : val -> val.

Hypothesis codec_canonical : forall v, cenc (norm v) = cenc v.
Hypothesis codec_roundtrip :
  forall v bs, cenc v = Some bs -> exists w, cdec bs = Some w /\ norm w = norm v.
Hypothesis Clock_defined : forall k, Clock k <> VUndef.

Lemma own_props_obj fs : own_props (VObj fs) = fs.
Proof. reflexivity. Qed.

Lemma get_obj_upd k k' x fs :
  k' <> k -> get (VObj (upd k x fs)) k' = get (VObj fs) k'.
Proof.
  intros H. unfold get. rewrite !own_props_obj, get_fs_upd.
  destruct (String.eqb_spec k' k); [contradiction|reflexivity].
Qed.

(** A successful [create] returns the entry of [create_ok]'s shape. *)
Lemma create_ok_fields identity id payload f clock next refs e :
  snd (create cenc chash Clock (Some identity) id payload f clock next refs) = Ok e ->
  exists s encP,
    match f with
    | None => encP = VUndef
    | Some _ => exists c, encP = VBytes c
    end /\
    cenc (VObj [("id", id); ("payload", js_or encP payload);
                ("next", default_arg next (VArr [])); ("refs", default_arg refs (VArr []));
                ("clock", if truthy clock then clock else Clock (publicKey identity));
                ("v", VNum 2)]) <> None /\
    (forall bs, cenc (VObj [("id", id); ("payload", js_or encP payload);
                ("next", default_arg next (VArr [])); ("refs", default_arg refs (VArr []));
                ("clock", if truthy clock then clock else Clock (publicKey identity));
                ("v", VNum 2)]) = Some bs -> sign identity bs = Some s) /\
    e = VObj ([("id", id); ("payload", payload); ("next", default_arg next (VArr []));
               ("refs", default_arg refs (VArr []));
               ("clock", if truthy clock then clock else Clock (publicKey identity));
               ("v", VNum 2); ("key", publicKey identity);
               ("identity", identity_hash identity); ("sig", s)] ++
              match f with Some _ => [("_payload", encP)] | None => [] end).
Proof.
  intros H. apply create_ok in H. cbv zeta in H.
  destruct H as (_ & _ & _ & encP & bs & s & Hf & Hbs & Hs & ->).
  exists s, encP. split; [|split; [congruence|split; [|reflexivity]]].
  - destruct f; [destruct Hf as (? & c & _ & _ & ->); eauto|exact Hf].
  - intros bs' Hbs'. congruence.
Qed.

(** X1. The entry [create] returns holds the given [id] and (plaintext)
    [payload], [next] and [refs] (each [[]] when undefined), the given
    clock when it is truthy and [Clock(identity.publicKey)] otherwise,
    [v = 2], [key = identity.publicKey], [identity = identity.hash], no
    [hash], and a [_payload] exactly when an [encryptPayloadFn] was given. *)
Theorem create_fields identity id payload f clock next refs e :
  snd (create cenc chash Clock (Some identity) id payload f clock next refs) = Ok e ->
  get e "id" = id /\ get e "payload" = payload /\
  get e "next" = default_arg next (VArr []) /\ get e "refs" = default_arg refs (VArr []) /\
  get e "clock" = (if truthy clock then clock else Clock (publicKey identity)) /\
  get e "v" = VNum 2 /\ get e "key" = publicKey identity /\
  get e "identity" = identity_hash identity /\ get e "hash" = VUndef /\
  (is_undef (get e "_payload") = true <-> f = None).
Proof.
  intros H. apply create_ok_fields in H as (s & encP & Hf & _ & _ & ->).
  unfold get, get_fs. rewrite own_props_obj.
  destruct f as [g|]; simpl.
  - destruct Hf as [c ->]. repeat split; try reflexivity; discriminate.
  - repeat split; reflexivity.
Qed.

(** X2. [create] signs exactly the snapshot [verify] rebuilds from the
    returned entry: [entry.sig] is [identity.sign] of the encoding of
    [{id, payload: _payload || payload, next, refs, clock, v}] read off the
    entry itself. *)
Theorem create_signs_verify_snapshot identity id payload f clock next refs e :
  snd (create cenc chash Clock (Some identity) id payload f clock next refs) = Ok e ->
  exists bs, cenc (verify_value e) = Some bs /\ sign identity bs = Some (get e "sig").
Proof.
  intros H. apply create_ok_fields in H as (s & encP & Hf & Hne & Hs & ->).
  destruct (cenc _) as [bs|] eqn:Hbs; [|contradiction].
  exists bs. split.
  - rewrite <- Hbs. unfold verify_value, get, get_fs. rewrite !own_props_obj.
    destruct f as [g|]; simpl.
    + destruct Hf as [c ->]. reflexivity.
    + subst encP. reflexivity.
  - rewrite (Hs bs eq_refl). unfold get, get_fs. rewrite own_props_obj.
    destruct f; reflexivity.
Qed.

(** X3. The collaborators a successful [create] calls, in order: the clock
    provider only when no truthy clock is given, the codec and
    [encryptPayloadFn] only when payload encryption is asked for, then the
    codec once for the snapshot and the signer once. *)
Theorem create_trace identity id payload f clock next refs e :
  snd (create cenc chash Clock (Some identity) id payload f clock next refs) = Ok e ->
  fst (create cenc chash Clock (Some identity) id payload f clock next refs) =
  (if truthy clock then [] else [CClock]) ++
  match f with Some _ => [CEncode; CEncrypt] | None => [] end ++ [CEncode; CSign].
Proof.
  unfold create, block_encode, invoke, bind, ret, throw. cbv zeta.
  destruct (is_nullish id); [discriminate|].
  destruct (is_nullish payload); [discriminate|].
  destruct (is_nullish (default_arg next (VArr [])) ||
            negb (is_array (default_arg next (VArr [])))); [discriminate|].
  destruct (truthy clock); destruct f as [g|]; simpl;
    repeat match goal with
           | |- context [match ?x with Some _ => _ | None => _ end] =>
               destruct x; simpl
           end; first [reflexivity | discriminate].
Qed.

(** X4. The entry [create] returns is an entry: [isEntry] gives [true]. *)
Theorem create_isEntry identity id payload f clock next refs e :
  snd (create cenc chash Clock (Some identity) id payload f clock next refs) = Ok e ->
  isEntry e = VBool true.
Proof.
  intros H. pose proof H as H'. apply create_ok in H' as (Hid & Hp & _).
  apply create_ok_fields in H as (s & encP & _ & _ & _ & ->).
  assert (Hc : is_undef (if truthy clock then clock else Clock (publicKey identity)) = false).
  { destruct (truthy clock) eqn:Hc; [apply truthy_undef, Hc|].
    specialize (Clock_defined (publicKey identity)).
    destruct (Clock (publicKey identity)); simpl; congruence. }
  unfold isEntry, js_and, get, get_fs. rewrite !own_props_obj. simpl.
  rewrite (nullish_undef id Hid), (nullish_undef payload Hp), Hc, !default_arg_defined.
  destruct f; reflexivity.
Qed.

(** X5. [verify] reads no property of the entry but [id], [payload],
    [_payload], [next], [refs], [clock], [v], [key] and [sig]: setting any
    other property (such as [hash] or [identity]) changes neither its
    result nor the calls it makes. *)
Theorem verify_ignores_other_fields ids k x fs :
  ~ In k ["id"; "payload"; "_payload"; "next"; "refs"; "clock"; "v"; "key"; "sig"] ->
  verify cenc chash ids (VObj (upd k x fs)) = verify cenc chash ids (VObj fs).
Proof.
  intros Hk.
  assert (Hg : forall k', In k' ["id"; "payload"; "_payload"; "next"; "refs"; "clock";
                                 "v"; "key"; "sig"] ->
                 get (VObj (upd k x fs)) k' = get (VObj fs) k').
  { intros k' Hk'. apply get_obj_upd. intros ->. contradiction. }
  unfold verify, verify_value, isEntry. rewrite !own_props_obj.
  rewrite !Hg by (simpl; tauto). reflexivity.
Qed.

Lemma del_upd_same k v l : del k (upd k v l) = del k l.
Proof.
  induction l as [|[k0 v0] r IH]; simpl.
  - rewrite String.eqb_refl. reflexivity.
  - destruct (String.eqb_spec k k0) as [->|Hne]; simpl.
    + rewrite String.eqb_refl. reflexivity.
    + destruct (String.eqb_spec k k0); [contradiction|]. rewrite IH. reflexivity.
Qed.

Lemma del_upd_comm k j w l : j <> k -> del k (upd j w l) = upd j w (del k l).
Proof.
  intros Hjk. induction l as [|[k0 v0] r IH]; simpl.
  - destruct (String.eqb_spec k j); [congruence|reflexivity].
  - destruct (String.eqb_spec j k0) as [->|Hj]; simpl.
    + destruct (String.eqb_spec k k0); [congruence|]. simpl.
      rewrite String.eqb_refl. reflexivity.
    + destruct (String.eqb_spec k k0) as [->|Hk]; [reflexivity|]. simpl.
      destruct (String.eqb_spec j k0); [contradiction|]. rewrite IH. reflexivity.
Qed.

Lemma del_absent k l : lookup k l = None -> del k l = l.
Proof.
  induction l as [|[k0 v0] r IH]; simpl; [reflexivity|].
  destruct (String.eqb k k0); [discriminate|]. intros H. rewrite IH by exact H.
  reflexivity.
Qed.

Lemma lookup_None_notin k l : lookup k l = None <-> ~ In k (map fst l).
Proof.
  induction l as [|[k0 v0] r IH]; simpl; [tauto|].
  destruct (String.eqb_spec k k0) as [->|Hne]; [split; [discriminate|tauto]|].
  rewrite IH. split; [intros H [H'|H']; [congruence|tauto]|tauto].
Qed.

Lemma lookup_del_nodup k l : NoDup (map fst l) -> lookup k (del k l) = None.
Proof.
  induction l as [|[k0 v0] r IH]; simpl; [reflexivity|]. intros Hnd.
  inversion Hnd as [|? ? Hn Hr]; subst.
  destruct (String.eqb_spec k k0) as [->|Hne].
  - apply lookup_None_notin. exact Hn.
  - simpl. destruct (String.eqb_spec k k0); [contradiction|]. exact (IH Hr).
Qed.

Lemma in_keys_del x k l : In x (map fst (del k l)) -> In x (map fst l).
Proof.
  induction l as [|[k0 v0] r IH]; simpl; [tauto|].
  destruct (String.eqb k k0); simpl; [tauto|]. intros [H|H]; [tauto|right; exact (IH H)].
Qed.

Lemma nodup_del k l : NoDup (map fst l) -> NoDup (map fst (del k l)).
Proof.
  induction l as [|[k0 v0] r IH]; simpl; [tauto|]. intros Hnd.
  inversion Hnd as [|? ? Hn Hr]; subst.
  destruct (String.eqb k k0); [exact Hr|]. simpl. constructor.
  - intros Hin. apply Hn. exact (in_keys_del _ _ _ Hin).
  - exact (IH Hr).
Qed.

Lemma encode_value_upd_hash h fs pf :
  encode_value (VObj (upd "hash" h fs)) pf = encode_value (VObj fs) pf.
Proof.
  unfold encode_value. rewrite !own_props_obj. destruct pf as [g|].
  - rewrite get_fs_upd. simpl.
    rewrite !(del_upd_comm "_payload" "payload") by discriminate.
    rewrite (del_upd_comm "_payload" "hash") by discriminate.
    rewrite !(del_upd_comm "hash" "payload") by discriminate.
    rewrite del_upd_same. reflexivity.
  - rewrite (del_upd_comm "_payload" "hash") by discriminate.
    rewrite del_upd_same. reflexivity.
Qed.

Lemma encode_value_upd_cache x fs :
  encode_value (VObj (upd "_payload" x fs)) None = encode_value (VObj fs) None.
Proof. unfold encode_value. rewrite !own_props_obj, del_upd_same. reflexivity. Qed.

(** X6. [encode] ignores the entry's [hash] (so the [hash] [decode] adds
    does not change what is encoded), and, without [encryptPayloadFn], its
    [_payload] too: setting either changes neither the calls [encode]
    makes nor its result. *)
Theorem encode_ignores_hash_and_cache (fs : list (string * val)) h x ef pf :
  encode cenc chash (VObj (upd "hash" h fs)) ef pf = encode cenc chash (VObj fs) ef pf /\
  encode cenc chash (VObj (upd "_payload" x fs)) ef None = encode cenc chash (VObj fs) ef None.
Proof.
  unfold encode. rewrite encode_value_upd_hash, encode_value_upd_cache. split; reflexivity.
Qed.

Lemma snd_decrypt_entry_layer f bs :
  snd (decrypt_entry_layer cdec chash f bs) =
  match cdec bs with
  | Some v => match f v with Some b => Ok (b, chash bs) | None => Throw Foreign end
  | None => Throw Foreign
  end.
Proof.
  unfold decrypt_entry_layer. rewrite snd_bind, snd_block_decode.
  destruct (cdec bs); simpl; [|reflexivity]. msimpl. destruct (f v); reflexivity.
Qed.

(** A successful [decode] returns the copy of a value with [hash] set to
    the hash of the bytes it was given. *)
Lemma decode_ok_hash bs fE fP d :
  snd (decode cdec chash bs fE fP) = Ok d ->
  exists x, d = VObj (upd "hash" (VStr (chash bs)) (own_props x)).
Proof.
  unfold decode. rewrite snd_bind. destruct fE as [f|].
  - rewrite snd_catch_as, snd_bind, snd_decrypt_entry_layer.
    destruct (cdec bs) as [v|]; [|discriminate]. destruct (f v) as [b|]; [|discriminate].
    simpl. rewrite snd_bind, snd_block_decode.
    destruct (cdec b) as [w|]; simpl; [|discriminate]. rewrite snd_bind.
    match goal with
    | |- context [match snd ?m with Ok _ => _ | Throw _ => _ end] =>
        destruct (snd m) as [x|]; simpl; [|discriminate]
    end.
    intros H. injection H as <-. eauto.
  - simpl. rewrite snd_bind, snd_block_decode.
    destruct (cdec bs) as [w|]; simpl; [|discriminate]. rewrite snd_bind.
    match goal with
    | |- context [match snd ?m with Ok _ => _ | Throw _ => _ end] =>
        destruct (snd m) as [x|]; simpl; [|discriminate]
    end.
    intros H. injection H as <-. eauto.
Qed.

(** X7. Whatever decryption functions are given, the [hash] of the entry
    [decode] returns is the hash of the bytes [decode] was given (the
    wrapper block's when entries are encrypted); a [hash] stored in the
    bytes is overwritten. *)
Theorem decode_hash bs fE fP d :
  snd (decode cdec chash bs fE fP) = Ok d -> get d "hash" = VStr (chash bs).
Proof.
  intros H. apply decode_ok_hash in H as [x ->].
  unfold get. rewrite own_props_obj, get_fs_upd. reflexivity.
Qed.

(** X8. Re-encoding a decoded entry reproduces the bytes and the hash:
    when [encode(e)] gives [(h, bytes)] (no encryption, an object [e] with
    distinct keys) and [decode(bytes)] gives [d], [encode(d)] gives
    [(h, bytes)] again. *)
Theorem reencode_decoded fs h bs d :
  NoDup (map fst fs) ->
  snd (encode cenc chash (VObj fs) None None) = Ok (h, bs) ->
  snd (decode cdec chash bs None None) = Ok d ->
  snd (encode cenc chash d None None) = Ok (h, bs).
Proof.
  intros Hnd He Hd.
  unfold encode in He. rewrite snd_bind, snd_block_encode in He.
  destruct (cenc (VObj (encode_value (VObj fs) None))) as [b0|] eqn:E0; [|discriminate].
  simpl in He. injection He as <- <-.
  set (ev := encode_value (VObj fs) None) in *.
  destruct (codec_roundtrip _ _ E0) as (w & Hw & Hn).
  rewrite snd_decode_plain, Hw in Hd. injection Hd as <-.
  rewrite norm_obj in Hn. destruct (norm_is_obj _ _ Hn) as (ws & -> & Hws).
  assert (Hk : forall k, lookup k ev = None -> lookup k ws = None).
  { intros k Hk. pose proof (lookup_norm_fields k ws) as L.
    rewrite <- Hws, lookup_norm_fields, Hk in L.
    destruct (lookup k ws); [discriminate|reflexivity]. }
  assert (Hh : lookup "hash" ev = None).
  { unfold ev, encode_value. rewrite own_props_obj.
    apply lookup_del_nodup, nodup_del, Hnd. }
  assert (Hp : lookup "_payload" ev = None).
  { unfold ev, encode_value. rewrite own_props_obj.
    rewrite lookup_del by discriminate. apply lookup_del_nodup, Hnd. }
  unfold encode. rewrite snd_bind, snd_block_encode, own_props_obj, encode_value_upd_hash.
  unfold encode_value. rewrite own_props_obj.
  rewrite (del_absent "_payload") by (apply Hk, Hp).
  rewrite (del_absent "hash") by (apply Hk, Hh).
  rewrite <- codec_canonical, norm_obj, <- Hws, <- norm_obj, codec_canonical, E0.
  reflexivity.
Qed.

(** X9. Entry encryption round trip: when [encode(e, encryptEntryFn)]
    gives [(h, bytes)] and [decryptEntryFn] undoes [encryptEntryFn],
    [decode(bytes, decryptEntryFn)] succeeds, its [hash] is [h], and it
    agrees with [e] on every property but [_payload] and [hash], up to
    property order. *)
Theorem entry_encryption_roundtrip fs f g h bs :
  (forall b c, f b = Some c -> g (VBytes c) = Some b) ->
  snd (encode cenc chash (VObj fs) (Some f) None) = Ok (h, bs) ->
  exists d,
    snd (decode cdec chash bs (Some g) None) = Ok d /\
    get d "hash" = VStr h /\
    (forall k, k <> "_payload" -> k <> "hash" -> norm (get d k) = norm (get_fs fs k)).
Proof.
  intros Hfg He.
  unfold encode in He. rewrite snd_bind, snd_block_encode in He.
  destruct (cenc (VObj (encode_value (VObj fs) None))) as [b0|] eqn:E0; [|discriminate].
  simpl in He. rewrite snd_bind in He. simpl in He.
  destruct (f b0) as [c|] eqn:Ef; simpl in He; [|discriminate].
  rewrite snd_block_encode in He.
  destruct (cenc (VBytes c)) as [ob|] eqn:Eo; [|discriminate]. injection He as <- <-.
  destruct (codec_roundtrip _ _ Eo) as (wo & Hwo & Hno). simpl in Hno.
  apply norm_VBytes in Hno. subst wo.
  destruct (codec_roundtrip _ _ E0) as (w & Hw & Hn).
  pose proof (Hfg _ _ Ef) as Hg.
  unfold decode. rewrite snd_bind, snd_catch_as, snd_bind, snd_decrypt_entry_layer, Hwo, Hg.
  simpl. rewrite snd_bind, snd_block_decode, Hw. simpl.
  eexists. split; [reflexivity|]. split.
  - unfold get. rewrite own_props_obj, get_fs_upd. reflexivity.
  - intros k Hk1 Hk2. unfold get at 1. rewrite own_props_obj, get_fs_upd.
    destruct (String.eqb_spec k "hash"); [contradiction|].
    apply (norm_get w _ k) in Hn. unfold get in Hn. rewrite Hn.
    unfold encode_value. rewrite own_props_obj, !get_fs_del by assumption. reflexivity.
Qed.

Lemma strict_eq_arr_cons c x d y :
  strict_eq (VArr (c :: x)) (VArr (d :: y)) = strict_eq c d && strict_eq (VArr x) (VArr y).
Proof. reflexivity. Qed.

Lemma strict_eq_obj_cons k c x l d y :
  strict_eq (VObj ((k, c) :: x)) (VObj ((l, d) :: y)) =
  String.eqb k l && strict_eq c d && strict_eq (VObj x) (VObj y).
Proof. reflexivity. Qed.

Lemma strict_eq_bytes_cons c x d y :
  strict_eq (VBytes (c :: x)) (VBytes (d :: y)) = Byte.eqb c d && strict_eq (VBytes x) (VBytes y).
Proof. reflexivity. Qed.

(** [===] on the values modelled is equality. *)
Lemma strict_eq_iff x y : strict_eq x y = true <-> x = y.
Proof.
  revert y.
  induction x as [| |b|z|s|bs|l IH|fs IH] using val_ind'; intros [| |b'|z'|s'|bs'|l'|fs'];
    try (simpl; split; congruence).
  - simpl. rewrite Bool.eqb_true_iff. split; congruence.
  - simpl. rewrite Z.eqb_eq. split; congruence.
  - simpl. rewrite String.eqb_eq. split; congruence.
  - revert bs'. induction bs as [|c x IHx]; intros [|d y]; try (simpl; split; congruence).
    rewrite strict_eq_bytes_cons, andb_true_iff, IHx. split.
    + intros [Hc Hy]. apply Byte.byte_dec_bl in Hc. congruence.
    + intros H. injection H as -> ->. split; [apply Byte.byte_dec_lb|]; reflexivity.
  - revert l'. induction IH as [|c x Hc _ IHx]; intros [|d y]; try (simpl; split; congruence).
    rewrite strict_eq_arr_cons, andb_true_iff, Hc, IHx. split.
    + intros [-> H]. injection H as ->. reflexivity.
    + intros H. injection H as -> ->. auto.
  - revert fs'. induction IH as [|[k c] x Hc _ IHx]; intros [|[k' d] y];
      try (simpl; split; congruence).
    rewrite strict_eq_obj_cons, !andb_true_iff, String.eqb_eq. simpl in Hc.
    rewrite Hc, IHx. split.
    + intros [[-> ->] H]. injection H as ->. reflexivity.
    + intros H. injection H as -> -> ->. auto.
Qed.

Lemma isEqual_true a b :
  isEqual a b = VBool true <->
  truthy a = true /\ truthy b = true /\ truthy (get a "hash") = true /\
  get a "hash" = get b "hash".
Proof.
  pose proof (strict_eq_iff (get a "hash") (get b "hash")) as E.
  unfold isEqual, js_and.
  destruct (truthy a) eqn:Ha; simpl; repeat (rewrite Ha; simpl).
  { destruct (truthy b) eqn:Hb; simpl; repeat (rewrite Hb; simpl).
    { destruct (truthy (get a "hash")) eqn:Hh; simpl; repeat (rewrite Hh; simpl).
      - split; [intros H; injection H as Hs; apply E in Hs; auto|].
        intros (_ & _ & _ & Hs). apply E in Hs. rewrite Hs. reflexivity.
      - split; [intros H; apply true_truthy in H; congruence|intuition congruence]. }
    split; [intros H; apply true_truthy in H; congruence|intuition congruence]. }
  split; [intros H; apply true_truthy in H; congruence|intuition congruence].
Qed.

(** X10. [isEqual] is symmetric and transitive: entries judged equal to
    each other are judged equal in either order, and equality chains. *)
Theorem isEqual_sym_trans a b c :
  (isEqual a b = VBool true -> isEqual b a = VBool true) /\
  (isEqual a b = VBool true -> isEqual b c = VBool true -> isEqual a c = VBool true).
Proof.
  rewrite !isEqual_true. split.
  - intros (Ha & Hb & Hh & Heq). repeat split; congruence.
  - intros (Ha & Hb & Hh & Heq) (_ & Hc & _ & Heq'). repeat split; congruence.
Qed.

(** X11. [isEntry] returns a boolean only for a truthy argument: on a
    falsy one ([null], [undefined], [false], [0], [""]) it returns that
    value itself. *)
Theorem isEntry_result obj :
  (truthy obj = false -> isEntry obj = obj) /\
  (truthy obj = true -> exists b, isEntry obj = VBool b).
Proof.
  split; intros H.
  - unfold isEntry, js_and. rewrite !H. reflexivity.
  - destruct (isEntry_value obj) as [E|[H' _]]; [eauto|congruence].
Qed.

(** X12. The replication path holds together: an entry made by [create]
    (no encryption), encoded, and decoded again verifies, when the key and
    the signatures are non-empty strings the identity system accepts. *)
Theorem create_encode_decode_verify identity identities id payload clock next refs e h bs d :
  (exists pk, publicKey identity = VStr pk /\ pk <> "") ->
  (forall b s, sign identity b = Some s ->
     (exists str, s = VStr str /\ str <> "") /\
     verify_sig identities s (publicKey identity) b = Some true) ->
  snd (create cenc chash Clock (Some identity) id payload None clock next refs) = Ok e ->
  snd (encode cenc chash e None None) = Ok (h, bs) ->
  snd (decode cdec chash bs None None) = Ok d ->
  snd (verify cenc chash (Some identities) d) = Ok true.
Proof.
  intros (pk & Hpk & Hpkne) Hsig Hc He Hd.
  pose proof Hc as Hc'. apply create_ok in Hc' as (Hid & Hp & Hn & _).
  apply create_ok_fields in Hc as (s & encP & Hf & Hne & Hs & ->). simpl in Hf. subst encP.
  match type of Hne with
  | cenc ?x <> None => destruct (cenc x) as [bsig|] eqn:Hbsig; [|contradiction]
  end.
  specialize (Hs bsig eq_refl).
  destruct (Hsig _ _ Hs) as ((str & -> & Hstrne) & Hv).
  assert (Hclk : is_undef (if truthy clock then clock else Clock (publicKey identity)) = false).
  { destruct (truthy clock) eqn:Hc0; [apply truthy_undef; exact Hc0|].
    specialize (Clock_defined (publicKey identity)).
    destruct (Clock (publicKey identity)); simpl; congruence. }
  rewrite Hpk in *.
  set (clk := if truthy clock then clock else Clock (VStr pk)) in *.
  set (next' := default_arg next (VArr [])) in *.
  set (refs' := default_arg refs (VArr [])) in *.
  set (e := VObj ([("id", id); ("payload", payload); ("next", next'); ("refs", refs');
                   ("clock", clk); ("v", VNum 2); ("key", VStr pk);
                   ("identity", identity_hash identity); ("sig", VStr str)] ++ [])).
  assert (Hpk1 : truthy (VStr pk) = true)
    by (simpl; destruct (String.eqb_spec pk ""); [contradiction|reflexivity]).
  assert (Hstr1 : truthy (VStr str) = true)
    by (simpl; destruct (String.eqb_spec str ""); [contradiction|reflexivity]).
  assert (HnU : is_undef next' = false) by (destruct next'; try discriminate Hn; reflexivity).
  assert (He_entry : truthy (isEntry e) = true).
  { apply isEntry_truthy. unfold get, get_fs; simpl.
    rewrite (nullish_undef _ Hid), (nullish_undef _ Hp), HnU, Hclk.
    unfold refs'. rewrite default_arg_defined. repeat split. }
  assert (He_value : cenc (verify_value e) = Some bsig) by (rewrite <- Hbsig; reflexivity).
  rewrite snd_encode_plain in He.
  match type of He with
  | context [cenc ?x] => destruct (cenc x) as [b0|] eqn:Hev; [|discriminate]
  end.
  injection He as <- <-.
  destruct (codec_roundtrip _ _ Hev) as (w & Hdec & Hw).
  pose proof Hw as Hw'. rewrite norm_obj in Hw'.
  apply norm_is_obj in Hw' as (fsw & -> & _).
  rewrite snd_decode_plain, Hdec in Hd. injection Hd as <-.
  change (own_props (VObj fsw)) with fsw in *.
  assert (Gd : forall k, k <> "hash" ->
                 norm (get (VObj (upd "hash" (VStr (chash b0)) fsw)) k) =
                 norm (get e k)).
  { intros k Hk. unfold get at 1. rewrite !own_props_obj, get_fs_upd.
    destruct (String.eqb_spec k "hash"); [contradiction|].
    pose proof (norm_get _ _ k Hw) as G. unfold get in G. rewrite own_props_obj in G.
    rewrite G. reflexivity. }
  set (d := VObj (upd "hash" (VStr (chash b0)) fsw)) in *.
  assert (Hd7 : forall k, In k ["id"; "payload"; "_payload"; "next"; "refs"; "clock"; "v"] ->
                  norm (get d k) = norm (get e k)).
  { intros k Hk. apply Gd. intros ->. simpl in Hk. intuition discriminate. }
  assert (Hd_entry : truthy (isEntry d) = true).
  { apply isEntry_truthy in He_entry. apply isEntry_truthy.
    rewrite !(fun k H => norm_is_undef chash _ _ (Hd7 k H)) by (simpl; tauto).
    exact He_entry. }
  assert (Hkey : get d "key" = VStr pk)
    by (apply norm_VStr; rewrite Gd by discriminate; reflexivity).
  assert (Hsigd : get d "sig" = VStr str)
    by (apply norm_VStr; rewrite Gd by discriminate; reflexivity).
  rewrite snd_verify_ok; [| exact Hd_entry | rewrite Hkey; exact Hpk1 | rewrite Hsigd; exact Hstr1].
  rewrite <- codec_canonical, (norm_verify_value d e Hd7), codec_canonical, He_value.
  rewrite Hkey, Hsigd, Hv. reflexivity.
Qed.

Lemma upd_upd_same k a b l : upd k a (upd k b l) = upd k a l.
Proof.
  induction l as [|[k0 v0] r IH]; simpl.
  - rewrite String.eqb_refl. reflexivity.
  - destruct (String.eqb_spec k k0) as [->|Hne]; simpl.
    + rewrite String.eqb_refl. reflexivity.
    + destruct (String.eqb_spec k k0); [contradiction|]. rewrite IH. reflexivity.
Qed.

Lemma upd_get_same k l : lookup k l <> None -> upd k (get_fs l k) l = l.
Proof.
  unfold get_fs. induction l as [|[k0 v0] r IH]; simpl; [contradiction|].
  destruct (String.eqb_spec k k0) as [->|Hne]; [reflexivity|].
  intros Hl. rewrite (IH Hl). reflexivity.
Qed.

Lemma in_keys_upd x k v l : In x (map fst (upd k v l)) -> x = k \/ In x (map fst l).
Proof.
  induction l as [|[k0 v0] r IH]; simpl.
  - intros [H|[]]. left. congruence.
  - destruct (String.eqb k k0); simpl; intros [H|H].
    + left. congruence.
    + right. right. exact H.
    + right. left. exact H.
    + destruct (IH H) as [H'|H']; [left; exact H'|right; right; exact H'].
Qed.

Lemma nodup_upd k v l : NoDup (map fst l) -> NoDup (map fst (upd k v l)).
Proof.
  induction l as [|[k0 v0] r IH]; simpl; intros Hnd.
  - constructor; [simpl; tauto|constructor].
  - inversion Hnd as [|? ? Hn Hr]; subst.
    destruct (String.eqb_spec k k0) as [->|Hne]; simpl; constructor; auto.
    intros Hin. apply in_keys_upd in Hin as [->|Hin]; [congruence|contradiction].
Qed.

(** X13. Re-encoding an entry decoded with payload decryption gives back
    the same bytes, using the stored ciphertext: when
    [encode(e, null, encryptPayloadFn)] gives [(h, bytes)] (an object [e]
    with distinct keys) and [decode(bytes, null, decryptPayloadFn)] gives
    [d], then [encode(d, null, encryptPayloadFn)] gives [(h, bytes)]
    again. *)
Theorem reencode_payload_decrypted fs f g h bs d :
  NoDup (map fst fs) ->
  snd (encode cenc chash (VObj fs) None (Some f)) = Ok (h, bs) ->
  snd (decode cdec chash bs None (Some g)) = Ok d ->
  snd (encode cenc chash d None (Some f)) = Ok (h, bs).
Proof.
  intros Hnd He Hd.
  unfold encode in He. rewrite snd_bind, snd_block_encode in He.
  destruct (cenc (VObj (encode_value (VObj fs) (Some f)))) as [b0|] eqn:E0; [|discriminate].
  simpl in He. injection He as <- <-.
  set (ev := encode_value (VObj fs) (Some f)) in *.
  destruct (codec_roundtrip _ _ E0) as (w & Hw & Hn).
  rewrite norm_obj in Hn. destruct (norm_is_obj _ _ Hn) as (ws & -> & Hws).
  assert (Hk : forall k, lookup k ev = None <-> lookup k ws = None).
  { intros k. pose proof (lookup_norm_fields k ws) as L.
    rewrite <- Hws, lookup_norm_fields in L.
    destruct (lookup k ev), (lookup k ws); simpl in L; split; congruence. }
  assert (Hnd' : NoDup (map fst (upd "payload" (get_fs fs "_payload") fs)))
    by (apply nodup_upd, Hnd).
  assert (Hh : lookup "hash" ws = None).
  { apply Hk. unfold ev, encode_value. rewrite own_props_obj.
    apply lookup_del_nodup, nodup_del, Hnd'. }
  assert (Hp : lookup "_payload" ws = None).
  { apply Hk. unfold ev, encode_value. rewrite own_props_obj.
    rewrite lookup_del by discriminate. apply lookup_del_nodup, Hnd'. }
  assert (Hpl : lookup "payload" ws <> None).
  { intros H. apply Hk in H. revert H. unfold ev, encode_value. rewrite own_props_obj.
    rewrite !lookup_del by discriminate. rewrite lookup_upd. simpl. discriminate. }
  rewrite snd_decode_payload, Hw, snd_decrypt_payload_layer in Hd.
  destruct (g (get_fs ws "payload")) as [dbs|]; [|discriminate].
  destruct (cdec dbs) as [dp|]; [|discriminate]. injection Hd as <-.
  unfold encode. rewrite snd_bind, snd_block_encode, encode_value_upd_hash.
  unfold encode_value. rewrite own_props_obj, !get_fs_upd. simpl.
  rewrite upd_upd_same.
  rewrite (del_upd_comm "_payload" "payload") by discriminate.
  rewrite del_upd_same, (del_absent "_payload") by exact Hp.
  rewrite (del_upd_comm "hash" "payload") by discriminate.
  rewrite (del_absent "hash") by exact Hh.
  rewrite upd_get_same by exact Hpl.
  rewrite <- codec_canonical, norm_obj, <- Hws, <- norm_obj, codec_canonical, E0.
  reflexivity.
Qed.

(** X14. Bytes that the codec cannot decode are reported with the codec's
    own error, except when entry decryption is on: then [decode] throws
    [Error("Could not decrypt entry")].  A payload decryption function
    does not change this (the outer decoding is outside its [try]). *)
Theorem decode_undecodable bs fE fP :
  cdec bs = None ->
  snd (decode cdec chash bs fE fP) =
  match fE with
  | Some _ => Throw (Error "Could not decrypt entry")
  | None => Throw Foreign
  end.
Proof.
  intros H. unfold decode. rewrite snd_bind. destruct fE as [f|].
  - rewrite snd_catch_as, snd_bind, snd_decrypt_entry_layer, H. reflexivity.
  - simpl. rewrite snd_bind, snd_block_decode, H. reflexivity.
Qed.

(** X15. With an [encryptPayloadFn], the [_payload] of the entry [create]
    returns is the ciphertext [encryptPayloadFn] produced from the
    encoding of the plaintext payload, and [payload] keeps the
    plaintext. *)
Theorem create_payload_ciphertext identity id payload f clock next refs e :
  snd (create cenc chash Clock (Some identity) id payload (Some f) clock next refs) = Ok e ->
  exists pbs c, cenc payload = Some pbs /\ f pbs = Some c /\
    get e "_payload" = VBytes c /\ get e "payload" = payload.
Proof.
  intros H. apply create_ok in H. cbv zeta in H.
  destruct H as (_ & _ & _ & encP & bs & s & (pbs & c & Hp & Hc & ->) & _ & _ & ->).
  exists pbs, c. repeat split; assumption.
Qed.

End Extras.

(** * Instances on the concrete codec *)

Import ToyCodec ToyCodecFacts.

Lemma signer_accepted bs s :
  sign signer bs = Some s ->
  (exists str, s = VStr str /\ str <> "") /\
  verify_sig verifier s (publicKey signer) bs = Some true.
Proof.
  simpl. intros H. injection H as <-. split.
  - eexists. split; [reflexivity|]. unfold sig_of. discriminate.
  - simpl. rewrite String.eqb_refl. reflexivity.
Qed.

Lemma create_then_verify_witness :
  snd (create cenc chash Clock (Some signer) (VStr "log1") (VStr "hello")
         None VNull VUndef VUndef) = Ok entry_plain /\
  snd (verify cenc chash (Some verifier) entry_plain) = Ok true.
Proof.
  assert (Hc : snd (create cenc chash Clock (Some signer) (VStr "log1") (VStr "hello")
                      None VNull VUndef VUndef) = Ok entry_plain)
    by (vm_compute; reflexivity).
  split; [exact Hc|].
  apply (create_then_verify cenc chash Clock toy_Clock_defined signer verifier
           (VStr "log1") (VStr "hello") VNull VUndef VUndef entry_plain).
  - reflexivity.
  - intros bs s H. destruct (signer_accepted bs s H) as [[str [-> Hne]] Hv].
    split; [|exact Hv]. simpl. destruct (String.eqb_spec str ""); [contradiction|reflexivity].
  - exact Hc.
Defined.

Lemma encrypted_payload_roundtrip_witness :
  snd (create cenc chash Clock (Some signer) (VStr "log1") (VStr "hello")
         (Some enc) VNull VUndef VUndef) = Ok entry_enc /\
  snd (encode cenc chash entry_enc None (Some enc)) = Ok (fst wire_enc, snd wire_enc) /\
  exists d,
    snd (decode cdec chash (snd wire_enc) None (Some dec)) = Ok d /\
    norm (get d "payload") = norm (VStr "hello") /\
    snd (verify cenc chash (Some verifier) entry_enc) = Ok true /\
    snd (verify cenc chash (Some verifier) d) = Ok true.
Proof.
  assert (Hc : snd (create cenc chash Clock (Some signer) (VStr "log1") (VStr "hello")
                      (Some enc) VNull VUndef VUndef) = Ok entry_enc)
    by (vm_compute; reflexivity).
  assert (He : snd (encode cenc chash entry_enc None (Some enc))
               = Ok (fst wire_enc, snd wire_enc))
    by (vm_compute; reflexivity).
  split; [exact Hc|]. split; [exact He|].
  apply (encrypted_payload_roundtrip cenc cdec chash Clock toy_canonical toy_roundtrip
           toy_Clock_defined signer verifier enc dec (VStr "log1") (VStr "hello")
           VNull VUndef VUndef entry_enc (fst wire_enc) (snd wire_enc)).
  - exists "pk". split; [reflexivity|discriminate].
  - exact signer_accepted.
  - intros b c H. unfold enc in H. injection H as <-. unfold dec.
    rewrite rev_involutive. reflexivity.
  - exact Hc.
  - exact He.
Defined.

Lemma encode_decode_roundtrip_witness :
  snd (encode cenc chash (VObj fields_plain) None None) = Ok (fst wire_plain, snd wire_plain) /\
  exists d,
    snd (decode cdec chash (snd wire_plain) None None) = Ok d /\
    (forall k, k <> "_payload" -> k <> "hash" -> norm (get d k) = norm (get_fs fields_plain k)) /\
    get d "hash" = VStr (fst wire_plain).
Proof.
  assert (He : snd (encode cenc chash (VObj fields_plain) None None)
               = Ok (fst wire_plain, snd wire_plain))
    by (vm_compute; reflexivity).
  split; [exact He|].
  exact (encode_decode_roundtrip cenc cdec chash toy_roundtrip fields_plain
           (fst wire_plain) (snd wire_plain) He).
Defined.

Lemma encode_uncached_payload_witness :
  get_fs fields_plain "_payload" = VUndef /\
  lookup "payload" (encode_value (VObj fields_plain) (Some enc)) = Some VUndef /\
  fst (encode cenc chash (VObj fields_plain) None (Some enc)) = [CEncode] /\
  snd (encode cenc chash (VObj fields_plain) None (Some enc)) = Throw Foreign.
Proof.
  assert (Hp : get_fs fields_plain "_payload" = VUndef) by (vm_compute; reflexivity).
  split; [exact Hp|].
  exact (encode_uncached_payload cenc chash toy_rejects_undefined fields_plain None enc Hp).
Defined.

Lemma decode_no_validation_witness :
  (exists k, In k ["id"; "next"; "payload"; "v"; "clock"; "refs"] /\
             get_fs partial_fields k = VUndef) /\
  cenc (VObj partial_fields) = Some (ser (norm (VObj partial_fields))) /\
  exists d,
    snd (decode cdec chash (ser (norm (VObj partial_fields))) None None) = Ok d /\
    isEntry d <> VBool true /\
    get d "hash" = VStr (chash (ser (norm (VObj partial_fields)))).
Proof.
  assert (Hk : exists k, In k ["id"; "next"; "payload"; "v"; "clock"; "refs"] /\
                         get_fs partial_fields k = VUndef).
  { exists "next". split; [simpl; tauto|reflexivity]. }
  assert (Hc : cenc (VObj partial_fields) = Some (ser (norm (VObj partial_fields))))
    by (vm_compute; reflexivity).
  split; [exact Hk|]. split; [exact Hc|].
  exact (decode_no_validation cenc cdec chash toy_roundtrip partial_fields _ Hk Hc).
Defined.

(** C5, refuted as stated: an entry that passes every structural check
    ([isEntry], [key], [sig]) but whose payload holds [undefined] makes
    [verify] raise the codec's error instead of resolving to a boolean. *)
Lemma verify_raises_counterexample :
  truthy (isEntry entry_undef_payload) = true /\
  truthy (get entry_undef_payload "key") = true /\
  truthy (get entry_undef_payload "sig") = true /\
  snd (verify cenc chash (Some verifier) entry_undef_payload) = Throw Foreign.
Proof. vm_compute. repeat split. Qed.

(** C8, refuted as stated: an entry whose hash is the empty string has a
    defined hash equal to itself, yet [isEqual(a, a)] is [""], not [true]. *)
Lemma isEqual_empty_hash_counterexample :
  get (VObj [("hash", VStr "")]) "hash" <> VUndef /\
  strict_eq (get (VObj [("hash", VStr "")]) "hash")
            (get (VObj [("hash", VStr "")]) "hash") = true /\
  isEqual (VObj [("hash", VStr "")]) (VObj [("hash", VStr "")]) = VStr "".
Proof. vm_compute. split; [discriminate|split; reflexivity]. Qed.

(** C9, refuted as stated: encoding an entry created without encryption,
    but with an [encryptPayloadFn], does not produce bytes without the
    payload: the codec rejects the undefined payload and [encode] fails. *)
Lemma encode_drops_payload_counterexample :
  get entry_plain "_payload" = VUndef /\
  snd (encode cenc chash entry_plain None (Some enc)) = Throw Foreign.
Proof. vm_compute. split; reflexivity. Qed.

Lemma create_fields_witness :
  snd (create cenc chash Clock (Some signer) (VStr "log1") (VStr "hello")
         (Some enc) VNull VUndef VUndef) = Ok entry_enc /\
  get entry_enc "clock" = Clock (VStr "pk") /\
  get entry_enc "next" = VArr [] /\
  get entry_enc "hash" = VUndef /\
  (is_undef (get entry_enc "_payload") = true <-> Some enc = None).
Proof.
  assert (Hc : snd (create cenc chash Clock (Some signer) (VStr "log1") (VStr "hello")
                      (Some enc) VNull VUndef VUndef) = Ok entry_enc)
    by (vm_compute; reflexivity).
  pose proof (create_fields cenc chash Clock signer (VStr "log1") (VStr "hello")
                (Some enc) VNull VUndef VUndef entry_enc Hc) as P.
  simpl in P. tauto.
Defined.

Lemma create_signs_verify_snapshot_witness :
  snd (create cenc chash Clock (Some signer) (VStr "log1") (VStr "hello")
         None VNull VUndef VUndef) = Ok entry_plain /\
  exists bs, cenc (verify_value entry_plain) = Some bs /\
             sign signer bs = Some (get entry_plain "sig").
Proof.
  assert (Hc : snd (create cenc chash Clock (Some signer) (VStr "log1") (VStr "hello")
                      None VNull VUndef VUndef) = Ok entry_plain)
    by (vm_compute; reflexivity).
  split; [exact Hc|].
  exact (create_signs_verify_snapshot cenc chash Clock signer (VStr "log1") (VStr "hello")
           None VNull VUndef VUndef entry_plain Hc).
Defined.

Lemma create_trace_witness :
  snd (create cenc chash Clock (Some signer) (VStr "log1") (VStr "hello")
         (Some enc) VNull VUndef VUndef) = Ok entry_enc /\
  fst (create cenc chash Clock (Some signer) (VStr "log1") (VStr "hello")
         (Some enc) VNull VUndef VUndef) = [CClock; CEncode; CEncrypt; CEncode; CSign].
Proof.
  assert (Hc : snd (create cenc chash Clock (Some signer) (VStr "log1") (VStr "hello")
                      (Some enc) VNull VUndef VUndef) = Ok entry_enc)
    by (vm_compute; reflexivity).
  split; [exact Hc|].
  rewrite (create_trace cenc chash Clock signer (VStr "log1") (VStr "hello")
             (Some enc) VNull VUndef VUndef entry_enc Hc).
  reflexivity.
Defined.

Lemma create_isEntry_witness :
  snd (create cenc chash Clock (Some signer) (VStr "log1") (VStr "hello")
         None VNull VUndef VUndef) = Ok entry_plain /\
  isEntry entry_plain = VBool true.
Proof.
  assert (Hc : snd (create cenc chash Clock (Some signer) (VStr "log1") (VStr "hello")
                      None VNull VUndef VUndef) = Ok entry_plain)
    by (vm_compute; reflexivity).
  split; [exact Hc|].
  exact (create_isEntry cenc chash Clock toy_Clock_defined signer (VStr "log1")
           (VStr "hello") None VNull VUndef VUndef entry_plain Hc).
Defined.

Lemma verify_ignores_other_fields_witness :
  ~ In "hash" ["id"; "payload"; "_payload"; "next"; "refs"; "clock"; "v"; "key"; "sig"] /\
  verify cenc chash (Some verifier) (VObj (upd "hash" (VStr "zz") fields_plain)) =
  verify cenc chash (Some verifier) (VObj fields_plain).
Proof.
  assert (Hn : ~ In "hash" ["id"; "payload"; "_payload"; "next"; "refs"; "clock";
                            "v"; "key"; "sig"])
    by (simpl; intuition discriminate).
  split; [exact Hn|].
  exact (verify_ignores_other_fields cenc chash (Some verifier) "hash" (VStr "zz")
           fields_plain Hn).
Defined.

Lemma decode_hash_witness :
  snd (decode cdec chash (snd wire_enc) None (Some dec)) =
    Ok (ok_or (snd (decode cdec chash (snd wire_enc) None (Some dec))) VUndef) /\
  get (ok_or (snd (decode cdec chash (snd wire_enc) None (Some dec))) VUndef) "hash" =
    VStr (chash (snd wire_enc)).
Proof.
  assert (Hd : snd (decode cdec chash (snd wire_enc) None (Some dec)) =
               Ok (ok_or (snd (decode cdec chash (snd wire_enc) None (Some dec))) VUndef))
    by (vm_compute; reflexivity).
  split; [exact Hd|].
  exact (decode_hash cdec chash (snd wire_enc) None (Some dec) _ Hd).
Defined.

Lemma reencode_decoded_witness :
  NoDup (map fst fields_plain) /\
  snd (encode cenc chash (VObj fields_plain) None None) = Ok (fst wire_plain, snd wire_plain) /\
  snd (decode cdec chash (snd wire_plain) None None) =
    Ok (ok_or (snd (decode cdec chash (snd wire_plain) None None)) VUndef) /\
  snd (encode cenc chash (ok_or (snd (decode cdec chash (snd wire_plain) None None)) VUndef)
         None None) = Ok (fst wire_plain, snd wire_plain).
Proof.
  assert (Hn : NoDup (map fst fields_plain))
    by (vm_compute; repeat constructor; simpl; intuition discriminate).
  assert (He : snd (encode cenc chash (VObj fields_plain) None None)
               = Ok (fst wire_plain, snd wire_plain))
    by (vm_compute; reflexivity).
  assert (Hd : snd (decode cdec chash (snd wire_plain) None None) =
               Ok (ok_or (snd (decode cdec chash (snd wire_plain) None None)) VUndef))
    by (vm_compute; reflexivity).
  split; [exact Hn|]. split; [exact He|]. split; [exact Hd|].
  exact (reencode_decoded cenc cdec chash toy_canonical toy_roundtrip fields_plain
           (fst wire_plain) (snd wire_plain) _ Hn He Hd).
Defined.

Lemma entry_encryption_roundtrip_witness :
  (forall b c, enc b = Some c -> dec (VBytes c) = Some b) /\
  snd (encode cenc chash (VObj fields_plain) (Some enc) None) =
    Ok (ok_or (snd (encode cenc chash (VObj fields_plain) (Some enc) None)) ("", [])) /\
  exists d,
    snd (decode cdec chash
           (snd (ok_or (snd (encode cenc chash (VObj fields_plain) (Some enc) None)) ("", [])))
           (Some dec) None) = Ok d /\
    get d "hash" =
      VStr (fst (ok_or (snd (encode cenc chash (VObj fields_plain) (Some enc) None)) ("", []))) /\
    forall k, k <> "_payload" -> k <> "hash" -> norm (get d k) = norm (get_fs fields_plain k).
Proof.
  assert (Hf : forall b c, enc b = Some c -> dec (VBytes c) = Some b).
  { intros b c H. unfold enc in H. injection H as <-. unfold dec.
    rewrite rev_involutive. reflexivity. }
  assert (He : snd (encode cenc chash (VObj fields_plain) (Some enc) None) =
               Ok (fst (ok_or (snd (encode cenc chash (VObj fields_plain) (Some enc) None))
                               ("", [])),
                   snd (ok_or (snd (encode cenc chash (VObj fields_plain) (Some enc) None))
                               ("", []))))
    by (vm_compute; reflexivity).
  split; [exact Hf|]. split; [rewrite He; reflexivity|].
  exact (entry_encryption_roundtrip cenc cdec chash toy_roundtrip fields_plain enc dec
           _ _ Hf He).
Defined.

Lemma create_encode_decode_verify_witness :
  snd (create cenc chash Clock (Some signer) (VStr "log1") (VStr "hello")
         None VNull VUndef VUndef) = Ok entry_plain /\
  snd (encode cenc chash entry_plain None None) = Ok (fst wire_plain, snd wire_plain) /\
  snd (decode cdec chash (snd wire_plain) None None) =
    Ok (ok_or (snd (decode cdec chash (snd wire_plain) None None)) VUndef) /\
  snd (verify cenc chash (Some verifier)
         (ok_or (snd (decode cdec chash (snd wire_plain) None None)) VUndef)) = Ok true.
Proof.
  assert (Hc : snd (create cenc chash Clock (Some signer) (VStr "log1") (VStr "hello")
                      None VNull VUndef VUndef) = Ok entry_plain)
    by (vm_compute; reflexivity).
  assert (He : snd (encode cenc chash entry_plain None None)
               = Ok (fst wire_plain, snd wire_plain))
    by (vm_compute; reflexivity).
  assert (Hd : snd (decode cdec chash (snd wire_plain) None None) =
               Ok (ok_or (snd (decode cdec chash (snd wire_plain) None None)) VUndef))
    by (vm_compute; reflexivity).
  split; [exact Hc|]. split; [exact He|]. split; [exact Hd|].
  apply (create_encode_decode_verify cenc cdec chash Clock toy_canonical toy_roundtrip
           toy_Clock_defined signer verifier (VStr "log1") (VStr "hello") VNull VUndef VUndef
           entry_plain (fst wire_plain) (snd wire_plain) _).
  - exists "pk". split; [reflexivity|discriminate].
  - exact signer_accepted.
  - exact Hc.
  - exact He.
  - exact Hd.
Defined.

Lemma reencode_payload_decrypted_witness :
  NoDup (map fst (own_props entry_enc)) /\
  snd (encode cenc chash (VObj (own_props entry_enc)) None (Some enc)) =
    Ok (fst wire_enc, snd wire_enc) /\
  snd (decode cdec chash (snd wire_enc) None (Some dec)) =
    Ok (ok_or (snd (decode cdec chash (snd wire_enc) None (Some dec))) VUndef) /\
  snd (encode cenc chash (ok_or (snd (decode cdec chash (snd wire_enc) None (Some dec))) VUndef)
         None (Some enc)) = Ok (fst wire_enc, snd wire_enc).
Proof.
  assert (Hn : NoDup (map fst (own_props entry_enc)))
    by (vm_compute; repeat constructor; simpl; intuition discriminate).
  assert (He : snd (encode cenc chash (VObj (own_props entry_enc)) None (Some enc))
               = Ok (fst wire_enc, snd wire_enc))
    by (vm_compute; reflexivity).
  assert (Hd : snd (decode cdec chash (snd wire_enc) None (Some dec)) =
               Ok (ok_or (snd (decode cdec chash (snd wire_enc) None (Some dec))) VUndef))
    by (vm_compute; reflexivity).
  split; [exact Hn|]. split; [exact He|]. split; [exact Hd|].
  exact (reencode_payload_decrypted cenc cdec chash toy_canonical toy_roundtrip
           (own_props entry_enc) enc dec (fst wire_enc) (snd wire_enc) _ Hn He Hd).
Defined.

Lemma decode_undecodable_witness :
  cdec [] = None /\
  snd (decode cdec chash [] (Some dec) (Some dec)) = Throw (Error "Could not decrypt entry") /\
  snd (decode cdec chash [] None (Some dec)) = Throw Foreign.
Proof.
  assert (H : cdec [] = None) by (vm_compute; reflexivity).
  split; [exact H|]. split.
  - exact (decode_undecodable cdec chash [] (Some dec) (Some dec) H).
  - exact (decode_undecodable cdec chash [] None (Some dec) H).
Defined.

Lemma create_payload_ciphertext_witness :
  snd (create cenc chash Clock (Some signer) (VStr "log1") (VStr "hello")
         (Some enc) VNull VUndef VUndef) = Ok entry_enc /\
  exists pbs c, cenc (VStr "hello") = Some pbs /\ enc pbs = Some c /\
    get entry_enc "_payload" = VBytes c /\ get entry_enc "payload" = VStr "hello".
Proof.
  assert (Hc : snd (create cenc chash Clock (Some signer) (VStr "log1") (VStr "hello")
                      (Some enc) VNull VUndef VUndef) = Ok entry_enc)
    by (vm_compute; reflexivity).
  split; [exact Hc|].
  exact (create_payload_ciphertext cenc chash Clock signer (VStr "log1") (VStr "hello")
           enc VNull VUndef VUndef entry_enc Hc).
Defined.
